(** * Shallow embedding of the Seek job monitor ([src/main.py])

    The development follows the source top-down:
    - Python values and the few builtins the code uses ([str], truthiness,
      [or], [.lower()], [.strip()], [in], [.split(',')], slicing);
    - the exception-carrying result type of Python calls;
    - the job filters [looks_automated] and [matches_location];
    - [SeekScraper.search] (retry loop) and [SeekScraper._parse_response]
      (embedded Redux blob first, DOM fallback second);
    - [load_state], [save_state] and the reconciliation loop of [main].

    Strings are Rocq [string]s; lowercasing and whitespace stripping are
    modelled on ASCII characters.  JSON numbers are modelled as integers. *)

From Stdlib Require Import ZArith Ascii String List Bool Lia.
From stdpp Require Import base gmap sets list strings pretty.
Import ListNotations.
#[local] Set Warnings "-register-all".
Open Scope string_scope.
Open Scope list_scope.

(* ------------------------------------------------------------------ *)
(** ** Python exceptions and results *)

Inductive exc :=
  | AttributeError
  | TypeError
  | JSONDecodeError
  | RecursionError
  | ValueError.

Inductive res (A : Type) :=
  | Ok (a : A)
  | Raise (e : exc).
Arguments Ok {A} a.
Arguments Raise {A} e.

Definition res_bind {A B} (m : res A) (k : A -> res B) : res B :=
  match m with Ok a => k a | Raise e => Raise e end.

Notation "'let!' x ':=' m 'in' k" := (res_bind m (fun x => k))
  (at level 200, x name, m at level 100, k at level 200).

(* ------------------------------------------------------------------ *)
(** ** JSON values as [json.loads] returns them *)

Inductive json :=
  | JNull
  | JBool (b : bool)
  | JNum (z : Z)
  | JStr (s : string)
  | JArr (l : list json)
  | JObj (kvs : list (string * json)).

(** Python truthiness of a decoded value. *)
Definition truthy (v : json) : bool :=
  match v with
  | JNull => false
  | JBool b => b
  | JNum z => negb (Z.eqb z 0)
  | JStr s => negb (String.eqb s "")
  | JArr l => match l with [] => false | _ => true end
  | JObj kvs => match kvs with [] => false | _ => true end
  end.

(** [a or b] *)
Definition py_or (a b : json) : json := if truthy a then a else b.

(** A decoded dict keeps the last binding of a duplicated key. *)
Fixpoint obj_lookup (kvs : list (string * json)) (k : string) : option json :=
  match kvs with
  | [] => None
  | (k', v) :: rest =>
      match obj_lookup rest k with
      | Some w => Some w
      | None => if String.eqb k k' then Some v else None
      end
  end.

(** [d.get(k)] on a value: only dicts have [.get]. *)
Definition py_get (d : json) (k : string) : res json :=
  match d with
  | JObj kvs => Ok (match obj_lookup kvs k with Some v => v | None => JNull end)
  | _ => Raise AttributeError
  end.

(** [d.get(k, default)] on a value known to be a dict. *)
Definition get_default (kvs : list (string * json)) (k : string) (dflt : json) : json :=
  match obj_lookup kvs k with Some v => v | None => dflt end.

Definition is_dict (v : json) : bool :=
  match v with JObj _ => true | _ => false end.

Definition join (sep : string) (l : list string) : string :=
  match l with
  | [] => ""
  | x :: xs => fold_left (fun acc y => acc +:+ sep +:+ y) xs x
  end.

(** [str(v)]: [None], [True]/[False], decimal integers, the string itself;
    lists and dicts print their [repr] (quotes inside strings are not
    escaped in this model). *)
Fixpoint py_repr (v : json) : string :=
  match v with
  | JNull => "None"
  | JBool true => "True"
  | JBool false => "False"
  | JNum z => pretty z
  | JStr s => "'" +:+ s +:+ "'"
  | JArr l => "[" +:+ join ", " (map py_repr l) +:+ "]"
  | JObj kvs =>
      "{" +:+ join ", " (map (fun kv => "'" +:+ kv.1 +:+ "': " +:+ py_repr kv.2) kvs) +:+ "}"
  end.

Definition py_str (v : json) : string :=
  match v with JStr s => s | _ => py_repr v end.

(* ------------------------------------------------------------------ *)
(** ** String builtins *)

Definition ascii_lower (c : ascii) : ascii :=
  let n := nat_of_ascii c in
  if (65 <=? n)%nat && (n <=? 90)%nat then ascii_of_nat (n + 32) else c.

(** [s.lower()] *)
Fixpoint py_lower (s : string) : string :=
  match s with
  | EmptyString => EmptyString
  | String c s' => String (ascii_lower c) (py_lower s')
  end.

(** Characters removed by [str.strip()] (ASCII part of [str.isspace]). *)
Definition py_isspace (c : ascii) : bool :=
  let n := nat_of_ascii c in
  ((9 <=? n) && (n <=? 13))%nat || ((28 <=? n) && (n <=? 32))%nat.

Fixpoint lstrip (s : string) : string :=
  match s with
  | EmptyString => EmptyString
  | String c s' => if py_isspace c then lstrip s' else s
  end.

Fixpoint rev_str (s : string) : string :=
  match s with
  | EmptyString => EmptyString
  | String c s' => rev_str s' +:+ String c EmptyString
  end.

(** [s.strip()] *)
Definition py_strip (s : string) : string := rev_str (lstrip (rev_str (lstrip s))).

Fixpoint is_prefix (p s : string) : bool :=
  match p, s with
  | EmptyString, _ => true
  | String _ _, EmptyString => false
  | String a p', String b s' => Ascii.eqb a b && is_prefix p' s'
  end.

(** [sub in s] *)
Fixpoint py_contains (sub s : string) : bool :=
  is_prefix sub s ||
  match s with
  | EmptyString => false
  | String _ s' => py_contains sub s'
  end.

(** [s.split(',')] *)
Fixpoint split_go (cur : string) (s : string) : list string :=
  match s with
  | EmptyString => [rev_str cur]
  | String c s' =>
      if Ascii.eqb c "," then rev_str cur :: split_go EmptyString s'
      else split_go (String c cur) s'
  end.

Definition py_split_comma (s : string) : list string := split_go EmptyString s.

(** [s[a:b]] with Python's index normalisation (negative from the end,
    clamped to the string). *)
Definition py_index (n : Z) (len : Z) : nat :=
  Z.to_nat (Z.max 0 (Z.min len (if (n <? 0)%Z then n + len else n)%Z)).

Definition py_slice (s : string) (a b : Z) : string :=
  let len := Z.of_nat (String.length s) in
  let i := py_index a len in
  let j := py_index b len in
  substring i (j - i) s.

Fixpoint find_go (c : ascii) (s : string) (i : Z) : Z :=
  match s with
  | EmptyString => (-1)%Z
  | String c' s' => if Ascii.eqb c c' then i else find_go c s' (i + 1)%Z
  end.

(** [s.find(c)] and [s.rfind(c)] for a one-character needle. *)
Definition py_find (s : string) (c : ascii) : Z := find_go c s 0.

Fixpoint rfind_go (c : ascii) (s : string) (i : Z) (last : Z) : Z :=
  match s with
  | EmptyString => last
  | String c' s' => rfind_go c s' (i + 1)%Z (if Ascii.eqb c c' then i else last)
  end.

Definition py_rfind (s : string) (c : ascii) : Z := rfind_go c s 0 (-1).

(* ------------------------------------------------------------------ *)
(** ** Configuration (module-level constants) *)

Definition BASE_URL : string := "https://www.seek.co.nz".
Definition MAX_RETRIES : nat := 5.
Definition RETRY_DELAY : Z := 5.

(** [EXCLUDE_AUTOMATION_KEYWORDS] as computed from the environment string. *)
Definition exclude_keywords_of (env : string) : list string :=
  map (fun k => py_lower (py_strip k))
      (List.filter (fun k => negb (String.eqb (py_strip k) "")) (py_split_comma env)).

Definition EXCLUDE_AUTOMATION_KEYWORDS : list string :=
  exclude_keywords_of
    "automation,automated,selenium,cucumber,playwright,robotframework,webdriver,pytest,protractor,qa automation,automation engineer,automation tester".

(* ------------------------------------------------------------------ *)
(** ** Job records (the dicts built by [_parse_response])

    [id] and [url] are always built with [str]/f-strings; the other
    fields hold whatever value the page carried (the DOM path stores
    strings, the Redux path copies decoded JSON values). *)

Record job := mkJob {
  j_id : string;
  j_title : json;
  j_advertiser : json;
  j_location : json;
  j_salary : json;
  j_url : string;
  j_listingDate : json
}.

(** [v.lower()] and [v.strip()] on a field value: only strings have them. *)
Definition lower_val (v : json) : res string :=
  match v with JStr s => Ok (py_lower s) | _ => Raise AttributeError end.

Definition strip_val (v : json) : res string :=
  match v with JStr s => Ok (py_strip s) | _ => Raise AttributeError end.

(* ------------------------------------------------------------------ *)
(** ** [looks_automated] (lines 85-92) *)

Definition looks_automated (kws : list string) (job0 : job) : res bool :=
  let! title := lower_val (py_or (j_title job0) (JStr "")) in
  let! advertiser := lower_val (py_or (j_advertiser job0) (JStr "")) in
  Ok (existsb (fun kw => py_contains kw title || py_contains kw advertiser) kws).

(* ------------------------------------------------------------------ *)
(** ** [matches_location] (lines 95-113) *)

Definition location_tokens (desired_location : string) : list string :=
  map (fun d => py_lower (py_strip d))
      (List.filter (fun d => negb (String.eqb (py_strip d) "")) (py_split_comma desired_location)).

Definition matches_location (job0 : job) (desired_location : string) : res bool :=
  if String.eqb desired_location "" then Ok true else
  let! loc := strip_val (py_or (j_location job0) (JStr "")) in
  if String.eqb loc "" || String.eqb (py_lower loc) "unknown"
     || String.eqb (py_lower loc) "n/a"
  then Ok false
  else
    let job_loc := py_lower loc in
    Ok (existsb (fun token => py_contains token job_loc) (location_tokens desired_location)).

(* ------------------------------------------------------------------ *)
(** ** Redux extraction (lines 226-257) *)

Definition redux_paths : list (list string) :=
  [["results"; "jobs"]; ["search"; "results"; "jobs"]; ["jobs"]].

(** [node = node.get(key, {}) if isinstance(node, dict) else {}] along a path. *)
Definition walk_path (root : json) (path : list string) : json :=
  fold_left (fun node key =>
               match node with
               | JObj kvs => get_default kvs key (JObj [])
               | _ => JObj []
               end) path root.

(** The [for path in ...: ... break / else: results_list = []] loop. *)
Fixpoint first_list (root : json) (paths : list (list string)) : list json :=
  match paths with
  | [] => []
  | p :: ps =>
      match walk_path root p with
      | JArr (x :: xs) => x :: xs
      | _ => first_list root ps
      end
  end.

(** [item.get(k) or rest] *)
Definition get_or (item : json) (k : string) (rest : res json) : res json :=
  let! v := py_get item k in
  if truthy v then Ok v else rest.

(** The body of the [try] for one item (lines 243-252). *)
Definition map_item (item : json) : res job :=
  let! jid_v := get_or item "id" (get_or item "jobId" (py_get item "job_id")) in
  let jid := py_str jid_v in
  let! title := get_or item "title" (get_or item "occupation" (Ok (JStr "Unknown"))) in
  let! adv := py_get item "advertiser" in
  let! advertiser :=
    (if is_dict adv
     then (let! a := py_get item "advertiser" in py_get (py_or a (JObj [])) "description")
     else get_or item "advertiser" (Ok (JStr "Unknown"))) in
  let! location := get_or item "location" (Ok (JStr "Unknown")) in
  let! salary := get_or item "salary" (Ok (JStr "N/A")) in
  let url := BASE_URL +:+ "/job/" +:+ jid in
  let! listingDate := get_or item "listingDate" (get_or item "postedDate" (Ok (JStr "Unknown"))) in
  Ok (mkJob jid title advertiser location salary url listingDate).

(** [for item in results_list: try ... except Exception: continue] *)
Fixpoint map_items (items : list json) : list job :=
  match items with
  | [] => []
  | item :: rest =>
      match map_item item with
      | Ok j => j :: map_items rest
      | Raise _ => map_items rest
      end
  end.

(** Lines 228-257 for a truthy [redux_json]: [Some jobs] is the early
    [return jobs]; [None] falls through to the DOM strategy. *)
Definition redux_extract (redux_json : json) : option (list job) :=
  match map_items (first_list redux_json redux_paths) with
  | [] => None
  | jobs => Some jobs
  end.

(* ------------------------------------------------------------------ *)
(** ** DOM fallback (lines 261-357)

    A candidate element is described by what the code reads from it
    through BeautifulSoup: its tag name, [href], stripped text, the
    first job link it contains, its data attributes, and the stripped
    text of the first tag matched by each selector chain ([None] when
    the chain finds no tag).  The collection of candidates and their
    de-duplication by object identity (lines 266-290) produce the list
    [unique_candidates] that [dom_extract] receives. *)

Record dom_link := mkLink {
  link_href : option string;     (* link.get('href') *)
  link_text : string             (* link.get_text(strip=True) *)
}.

Record dom_node := mkNode {
  node_name : string;
  node_href : option string;
  node_text : string;
  node_job_link : option dom_link;      (* node.find('a', href=re.compile(r'/job/\d+')) *)
  node_data_job_id : option string;
  node_data_automation_id : option string;
  node_heading : option string;         (* node.find(['h1','h2','h3','h4']) *)
  node_aria_label : option string;
  node_advertiser_tag : option string;
  node_location_tag : option string;
  node_salary_tag : option string;
  node_date_tag : option string
}.

Definition opt_truthy (o : option string) : bool :=
  match o with Some s => negb (String.eqb s "") | None => false end.

(** [a or b] on optional attribute values. *)
Definition opt_or (a b : option string) : option string :=
  if opt_truthy a then a else b.

Definition is_digit (c : ascii) : bool :=
  let n := nat_of_ascii c in ((48 <=? n) && (n <=? 57))%nat.

Fixpoint digits_prefix (s : string) : string :=
  match s with
  | String c s' => if is_digit c then String c (digits_prefix s') else EmptyString
  | EmptyString => EmptyString
  end.

Fixpoint strip_prefix (p s : string) : option string :=
  match p, s with
  | EmptyString, _ => Some s
  | String a p', String b s' => if Ascii.eqb a b then strip_prefix p' s' else None
  | _, _ => None
  end.

(** [re.search(r'/job/(\d+)', s).group(1)]: leftmost match, greedy digits. *)
Fixpoint job_re (s : string) : option string :=
  match (match strip_prefix "/job/" s with
         | Some rest => match digits_prefix rest with
                        | EmptyString => None
                        | d => Some d
                        end
         | None => None
         end) with
  | Some d => Some d
  | None => match s with EmptyString => None | String _ s' => job_re s' end
  end.

(** One iteration of the per-candidate [try] block (lines 296-353);
    [None] is the [continue]. *)
Definition dom_item (node : dom_node) : option job :=
  let link :=
    if String.eqb (node_name node) "a" && opt_truthy (node_href node)
    then Some (mkLink (node_href node) (node_text node))
    else node_job_link node in
  let job_id :=
    match link with
    | Some l => match link_href l with
                | Some h => if negb (String.eqb h "") then job_re h else None
                | None => None
                end
    | None => None
    end in
  let job_id :=
    if opt_truthy job_id then job_id
    else opt_or (node_data_job_id node) (node_data_automation_id node) in
  match job_id with
  | Some jid =>
      if String.eqb jid "" then None else
      let title_text :=
        match link with
        | Some l => if negb (String.eqb (link_text l) "") then Some (link_text l) else None
        | None => None
        end in
      let title_text :=
        match title_text with
        | Some t => t
        | None =>
            match node_heading node with
            | Some h => if negb (String.eqb h "") then h else
                          match opt_or (node_aria_label node) (Some "Unknown") with
                          | Some t => t | None => "Unknown" end
            | None => match opt_or (node_aria_label node) (Some "Unknown") with
                      | Some t => t | None => "Unknown" end
            end
        end in
      let text_or (o : option string) (dflt : string) :=
        match o with Some t => t | None => dflt end in
      let url :=
        match link with
        | Some l => match link_href l with
                    | Some h => if negb (String.eqb h "") && is_prefix "/" h
                                then BASE_URL +:+ h
                                else BASE_URL +:+ "/job/" +:+ jid
                    | None => BASE_URL +:+ "/job/" +:+ jid
                    end
        | None => BASE_URL +:+ "/job/" +:+ jid
        end in
      Some (mkJob jid (JStr title_text)
              (JStr (text_or (node_advertiser_tag node) "Unknown"))
              (JStr (text_or (node_location_tag node) "Unknown"))
              (JStr (text_or (node_salary_tag node) "N/A"))
              url
              (JStr (text_or (node_date_tag node) "Unknown")))
  | None => None
  end.

Definition dom_extract (unique_candidates : list dom_node) : list job :=
  omap dom_item unique_candidates.

(* ------------------------------------------------------------------ *)
(** ** [_parse_response] (lines 197-357)

    The regular expression [window\.SEEK_REDUX_DATA\s*=\s*(\{.*?\})\s*;]
    and [json.loads] are library calls: [redux_re] returns the captured
    group of [pattern.search], [json_loads] the decoded value or the
    exception [json.loads] raises. *)

Section ParseResponse.
Variable redux_re : string -> option string.
Variable json_loads : string -> res json.

(** The [for script in scripts] loop (lines 206-224); [Ok None] means
    [redux_json] is still [None] after the loop. *)
Fixpoint scan_scripts (scripts : list (option string)) : res (option json) :=
  match scripts with
  | [] => Ok None
  | script :: rest =>
      if negb (opt_truthy script) then scan_scripts rest else
      match redux_re (match script with Some s => s | None => "" end) with
      | None => scan_scripts rest
      | Some candidate =>
          match json_loads candidate with
          | Ok v => Ok (Some v)
          | Raise JSONDecodeError =>
              let start := py_find candidate "{" in
              let end_ := py_rfind candidate "}" in
              match json_loads (py_slice candidate start (end_ + 1)) with
              | Ok v => Ok (Some v)
              | Raise _ => scan_scripts rest
              end
          | Raise e => Raise e
          end
      end
  end.

Definition parse_response (scripts : list (option string))
           (unique_candidates : list dom_node) : res (list job) :=
  let! redux_json := scan_scripts scripts in
  let structured :=
    match redux_json with
    | Some v => if truthy v then redux_extract v else None
    | None => None
    end in
  match structured with
  | Some jobs => Ok jobs
  | None => Ok (dom_extract unique_candidates)
  end.
End ParseResponse.

(* ------------------------------------------------------------------ *)
(** ** [SeekScraper.search] (lines 162-195)

    [get attempt] is the outcome of [self.scraper.get(...)] at the given
    attempt: a response (status and body) or a [RequestException].
    The run reports the result, the list of [time.sleep] delays and the
    number of requests sent.  Writing the debug file is wrapped in its
    own [try] and has no effect on the result. *)

Inductive response :=
  | Resp (status_code : Z) (text : string)
  | NetworkError.

Definition backoff (attempt : nat) : Z := (RETRY_DELAY * 2 ^ (Z.of_nat attempt - 1))%Z.

Section Search.
Variable parse : string -> res (list job).
Variable get : nat -> response.

Fixpoint search_loop (attempt fuel : nat) : res (list job) * list Z * nat :=
  match fuel with
  | O => (Ok [], [], O)
  | S fuel' =>
      let retry :=
        let '(r, sleeps, n) := search_loop (S attempt) fuel' in
        (r, backoff attempt :: sleeps, S n) in
      match get attempt with
      | Resp code text =>
          if Z.eqb code 200 then (parse text, [], 1%nat)
          else if Z.eqb code 403 || Z.eqb code 429 then retry
          else (Ok [], [], 1%nat)
      | NetworkError => retry
      end
  end.

Definition search : res (list job) * list Z * nat := search_loop 1 MAX_RETRIES.
End Search.

(* ------------------------------------------------------------------ *)
(** ** The search URL (lines 166-167)

    Strings are byte strings (the UTF-8 encoding that [quote_plus]
    percent-encodes).  [quote_plus] keeps the always-safe bytes (ASCII
    letters, digits and [_.-~]), turns a space into [+] and writes every
    other byte as [%XX] with upper-case hex digits. *)

Definition always_safe (c : ascii) : bool :=
  let n := nat_of_ascii c in
  ((48 <=? n) && (n <=? 57))%nat || ((65 <=? n) && (n <=? 90))%nat
  || ((97 <=? n) && (n <=? 122))%nat
  || Ascii.eqb c "_" || Ascii.eqb c "." || Ascii.eqb c "-" || Ascii.eqb c "~".

Definition hex_digit (n : nat) : ascii :=
  if (n <? 10)%nat then ascii_of_nat (48 + n) else ascii_of_nat (55 + n).

Definition quote_char (c : ascii) : string :=
  if always_safe c then String c EmptyString
  else if Ascii.eqb c " " then "+"
  else String "%" (String (hex_digit (nat_of_ascii c / 16))
                          (String (hex_digit (nat_of_ascii c mod 16)) EmptyString)).

(** [urllib.parse.quote_plus(s)] *)
Fixpoint quote_plus (s : string) : string :=
  match s with
  | EmptyString => EmptyString
  | String c s' => quote_char c +:+ quote_plus s'
  end.

(** [url = f"{BASE_URL}/jobs?keywords={quote_plus(keyword)}&location={quote_plus(location)}"] *)
Definition search_url (keyword location : string) : string :=
  BASE_URL +:+ "/jobs?" +:+ "keywords=" +:+ quote_plus keyword
  +:+ "&location=" +:+ quote_plus location.

(** The server side of the query: [urllib.parse.unquote_plus] on bytes
    ([+] is a space, [%XX] with hex digits of either case is the byte
    [XX], a [%] not followed by two hex digits stays as it is). *)
Definition hex_value (c : ascii) : option nat :=
  let n := nat_of_ascii c in
  if ((48 <=? n) && (n <=? 57))%nat then Some (n - 48)
  else if ((65 <=? n) && (n <=? 70))%nat then Some (n - 55)
  else if ((97 <=? n) && (n <=? 102))%nat then Some (n - 87)
  else None.

Fixpoint unquote_plus (s : string) : string :=
  match s with
  | EmptyString => EmptyString
  | String c s' =>
      if Ascii.eqb c "+" then String " " (unquote_plus s')
      else if Ascii.eqb c "%" then
        match s' with
        | String h1 (String h2 s'') =>
            match hex_value h1, hex_value h2 with
            | Some a, Some b => String (ascii_of_nat (a * 16 + b)) (unquote_plus s'')
            | _, _ => String c (unquote_plus s')
            end
        | _ => String c (unquote_plus s')
        end
      else String c (unquote_plus s')
  end.

(** Bytes that can appear in a [quote_plus] result. *)
Definition url_char (c : ascii) : bool :=
  always_safe c || Ascii.eqb c "+" || Ascii.eqb c "%".

(* ------------------------------------------------------------------ *)
(** ** Seen-set state (lines 399-415)

    The seen set is a Python [set] of strings, modelled as a [gset].
    [list(seen_ids)] enumerates the set in the hash table's order:
    [set_iter] stands for it where a property holds for every order, and
    the CPython table model after [main] computes it. *)

Inductive state_file :=
  | FAbsent
  | FCorrupt                (* unreadable or not valid JSON *)
  | FJson (v : json).

(** [set(map(str, data))], with the [except Exception: return set()]. *)
Definition load_state (f : state_file) : gset string :=
  match f with
  | FJson (JArr l) => list_to_set (map py_str l)
  | FJson (JObj kvs) => list_to_set (map fst kvs)
  | FJson (JStr s) => list_to_set (map (fun c => String c EmptyString) (list_ascii_of_string s))
  | _ => ∅
  end.

(** [lst[-n:]] *)
Definition py_last {A} (n : nat) (l : list A) : list A := drop (length l - n) l.

Section State.
Variable set_iter : gset string -> list string.

(** The list [save_state] dumps: [list(seen_ids)[-2000:]]. *)
Definition save_state (seen_ids : gset string) : list string :=
  py_last 2000 (set_iter seen_ids).

(** The file content after [json.dump] in ['w'] mode. *)
Definition saved_file (limited_ids : list string) : state_file :=
  FJson (JArr (map JStr limited_ids)).
End State.

(* ------------------------------------------------------------------ *)
(** ** Reconciliation in [main] (lines 437-466) *)

(** A Python dict keyed by id, in insertion order: re-assigning a key
    keeps its position and replaces its value. *)
Fixpoint dict_set (d : list (string * job)) (k : string) (v : job) : list (string * job) :=
  match d with
  | [] => [(k, v)]
  | (k', v') :: rest =>
      if String.eqb k k' then (k', v) :: rest else (k', v') :: dict_set rest k v
  end.

(** [list({j['id']: j for j in all_found_jobs if j.get('id')}.values())] *)
Definition dedup (all_found_jobs : list job) : list job :=
  map snd (fold_left (fun d j => if String.eqb (j_id j) "" then d else dict_set d (j_id j) j)
                     all_found_jobs []).

Record loop_state := mkLoop {
  seen_jobs : gset string;
  sent : list job;                (* notifier.send_job calls, in order *)
  new_count : nat;
  skipped_not_location : nat;
  skipped_automation : nat
}.

Section Reconcile.
Variable search_location : string.
Variable exclude_kws : list string.

Fixpoint reconcile_loop (jobs : list job) (st : loop_state) : res loop_state :=
  match jobs with
  | [] => Ok st
  | job0 :: rest =>
      let jid := j_id job0 in
      if String.eqb jid "" then reconcile_loop rest st
      else if bool_decide (jid ∈ seen_jobs st) then reconcile_loop rest st
      else
        let! ml := matches_location job0 search_location in
        if negb ml then
          reconcile_loop rest (mkLoop (seen_jobs st) (sent st) (new_count st)
                                      (S (skipped_not_location st)) (skipped_automation st))
        else
          let! la := looks_automated exclude_kws job0 in
          if la then
            reconcile_loop rest (mkLoop (seen_jobs st) (sent st) (new_count st)
                                        (skipped_not_location st) (S (skipped_automation st)))
          else
            reconcile_loop rest (mkLoop ({[jid]} ∪ seen_jobs st) ((sent st ++ [job0])%list)
                                        (S (new_count st)) (skipped_not_location st)
                                        (skipped_automation st))
  end.

(** Dedup followed by the loop, from a given seen set. *)
Definition reconcile (all_found_jobs : list job) (seen0 : gset string) : res loop_state :=
  reconcile_loop (dedup all_found_jobs) (mkLoop seen0 [] 0 0 0).
End Reconcile.

Record run_out := mkRun {
  run_sent : list job;
  run_seen : gset string;
  run_saves : list (list string);   (* the lists passed to json.dump, one per save_state call *)
  run_file : state_file             (* the state file after the run *)
}.

Section Main.
Variable set_iter : gset string -> list string.
Variable search_location : string.
Variable exclude_kws : list string.

(** The keyword loop (lines 426-435). *)
Fixpoint collect (search_kw : string -> res (list job)) (keywords : list string)
  : res (list job) :=
  match keywords with
  | [] => Ok []
  | keyword :: rest =>
      let k := py_strip keyword in
      if String.eqb k "" then collect search_kw rest
      else let! jobs := search_kw k in
           let! more := collect search_kw rest in
           Ok ((jobs ++ more)%list)
  end.

(** [main] after the searches: load, reconcile, save when [new_count]. *)
Definition main_run (all_found_jobs : list job) (file0 : state_file) : res run_out :=
  let seen0 := load_state file0 in
  let! st := reconcile search_location exclude_kws all_found_jobs seen0 in
  if Nat.eqb (new_count st) 0 then Ok (mkRun (sent st) (seen_jobs st) [] file0)
  else
    let limited_ids := save_state set_iter (seen_jobs st) in
    Ok (mkRun (sent st) (seen_jobs st) [limited_ids] (saved_file limited_ids)).

Definition main (search_kw : string -> res (list job)) (keywords : list string)
           (file0 : state_file) : res run_out :=
  let! found := collect search_kw keywords in
  main_run found file0.
End Main.

(* ------------------------------------------------------------------ *)
(** ** The seen set as a CPython [set] (CPython 3.11)

    [list(seen_ids)] walks the hash table of the set from slot 0 to its
    last slot.  Where an entry lands depends on the hash of the string and
    on the order of the insertions.  The hash of a [str] is SipHash-1-3
    (Python/pyhash.c) of its characters, stored with 1, 2 or 4 bytes each;
    its key is the hash secret, all zero under [PYTHONHASHSEED=0].  The
    table follows Objects/setobject.c: [set_add_entry], [set_table_resize]
    and [set_insert_clean].  [main] never removes from the set, so the
    table holds no dummy entries.  Words are [Z]s below [2^64]; the model's
    strings hold UTF-8. *)

Section CPythonSet.
Local Open Scope Z_scope.

Definition mask64 : Z := Z.ones 64.
Definition add64 (a b : Z) : Z := Z.land (a + b) mask64.
Definition rotl64 (x s : Z) : Z :=
  Z.land (Z.lor (Z.shiftl x s) (Z.shiftr x (64 - s))) mask64.

(** [HALF_ROUND(a,b,c,d,s,t)] *)
Definition half_round (a b c d s t : Z) : Z * Z * Z * Z :=
  let a := add64 a b in
  let c := add64 c d in
  let b := Z.lxor (rotl64 b s) a in
  let d := Z.lxor (rotl64 d t) c in
  let a := rotl64 a 32 in
  (a, b, c, d).

(** [SINGLE_ROUND(v0,v1,v2,v3)] *)
Definition single_round (v : Z * Z * Z * Z) : Z * Z * Z * Z :=
  let '(v0, v1, v2, v3) := v in
  let '(v0, v1, v2, v3) := half_round v0 v1 v2 v3 13 16 in
  let '(v2, v1, v0, v3) := half_round v2 v1 v0 v3 17 21 in
  (v0, v1, v2, v3).

(** [v3 ^= m; SINGLE_ROUND(v0,v1,v2,v3); v0 ^= m;] *)
Definition sip_absorb (v : Z * Z * Z * Z) (m : Z) : Z * Z * Z * Z :=
  let '(v0, v1, v2, v3) := v in
  let '(v0, v1, v2, v3) := single_round (v0, v1, v2, Z.lxor v3 m) in
  (Z.lxor v0 m, v1, v2, v3).

(** Bytes read as a little-endian word. *)
Definition le64 (bs : list Z) : Z := fold_right (fun b acc => b + 256 * acc) 0 bs.

(** The [while (src_sz >= 8)] loop over the 8-byte blocks; it returns the
    state and the remaining tail. *)
Fixpoint sip_blocks (v : Z * Z * Z * Z) (bs : list Z) : (Z * Z * Z * Z) * list Z :=
  match bs with
  | b0 :: b1 :: b2 :: b3 :: b4 :: b5 :: b6 :: b7 :: rest =>
      sip_blocks (sip_absorb v (le64 [b0; b1; b2; b3; b4; b5; b6; b7])) rest
  | _ => (v, bs)
  end.

Definition siphash13 (k0 k1 : Z) (src : list Z) : Z :=
  let b := Z.land (Z.shiftl (Z.of_nat (length src)) 56) mask64 in
  let v := (Z.lxor k0 0x736f6d6570736575, Z.lxor k1 0x646f72616e646f6d,
            Z.lxor k0 0x6c7967656e657261, Z.lxor k1 0x7465646279746573) in
  let '(v, tail) := sip_blocks v src in
  let b := Z.lor b (le64 tail) in
  let '(v0, v1, v2, v3) := sip_absorb v b in
  let '(v0, v1, v2, v3) :=
    single_round (single_round (single_round (v0, v1, Z.lxor v2 255, v3))) in
  Z.lxor (Z.lxor v0 v1) (Z.lxor v2 v3).

(** The code points of a UTF-8 byte sequence. *)
Fixpoint utf8_code_points (bs : list Z) : list Z :=
  match bs with
  | [] => []
  | b0 :: bs1 =>
      if b0 <? 128 then b0 :: utf8_code_points bs1 else
      match bs1 with
      | [] => []
      | b1 :: bs2 =>
          if b0 <? 224 then
            Z.lor (Z.shiftl (Z.land b0 31) 6) (Z.land b1 63) :: utf8_code_points bs2 else
          match bs2 with
          | [] => []
          | b2 :: bs3 =>
              if b0 <? 240 then
                Z.lor (Z.shiftl (Z.land b0 15) 12)
                      (Z.lor (Z.shiftl (Z.land b1 63) 6) (Z.land b2 63))
                  :: utf8_code_points bs3 else
              match bs3 with
              | [] => []
              | b3 :: bs4 =>
                  Z.lor (Z.shiftl (Z.land b0 7) 18)
                        (Z.lor (Z.shiftl (Z.land b1 63) 12)
                               (Z.lor (Z.shiftl (Z.land b2 63) 6) (Z.land b3 63)))
                    :: utf8_code_points bs4
              end
          end
      end
  end.

(** [PyUnicode_KIND]: bytes per character of the compact representation. *)
Definition str_kind (cps : list Z) : nat :=
  let m := fold_right Z.max 0 cps in
  if m <? 256 then 1%nat else if m <? 65536 then 2%nat else 4%nat.

(** [PyUnicode_DATA], [PyUnicode_GET_LENGTH * PyUnicode_KIND] bytes. *)
Definition str_data (s : string) : list Z :=
  let cps := utf8_code_points (map (fun c => Z.of_nat (nat_of_ascii c)) (list_ascii_of_string s)) in
  let k := str_kind cps in
  flat_map (fun cp => map (fun i => Z.land (Z.shiftr cp (8 * Z.of_nat i)) 255) (seq 0 k)) cps.

(** [hash(s)] as the [size_t] the set uses: [_Py_HashBytes] gives 0 for
    the empty string and maps -1 to -2. *)
Definition str_hash (s : string) : Z :=
  match str_data s with
  | [] => 0
  | data => let x := siphash13 0 0 data in if Z.eqb x mask64 then mask64 - 1 else x
  end.

(** A [PySetObject]: the table of entries ([None] for an unused slot,
    otherwise the key and its hash), [mask] = size - 1, [fill], [used]. *)
Record pyset := mkPyset {
  ps_table : list (option (string * Z));
  ps_mask : Z;
  ps_fill : Z;
  ps_used : Z
}.

(** [set()]: [PySet_MINSIZE] = 8 slots. *)
Definition pyset_empty : pyset := mkPyset (repeat None 8) 7 0 0.

Definition slot (t : list (option (string * Z))) (i : Z) : option (string * Z) :=
  nth (Z.to_nat i) t None.

Inductive probe_result := PUnused (j : Z) | PActive | PContinue.

(** The [do { ... entry++; } while (probes--)] scan of [set_add_entry]
    over slots [j], [j + 1], ..., [j + probes]. *)
Fixpoint probe_add (t : list (option (string * Z))) (key : string) (h j : Z) (probes : nat)
  : probe_result :=
  match slot t j with
  | None => PUnused j
  | Some (k', h') =>
      if Z.eqb h' h && String.eqb k' key then PActive
      else match probes with
           | O => PContinue
           | S p => probe_add t key h (j + 1) p
           end
  end.

(** The [for (j = 0; j < LINEAR_PROBES; j++)] scan of [set_insert_clean]
    over the slots after [j]. *)
Fixpoint probe_clean (t : list (option (string * Z))) (j : Z) (probes : nat) : option Z :=
  match probes with
  | O => None
  | S p => match slot t (j + 1) with None => Some (j + 1) | Some _ => probe_clean t (j + 1) p end
  end.

(** The probe sequence of [set_insert_clean]; the fuel exceeds the number
    of slots, and the probe sequence reaches a free slot before. *)
Fixpoint insert_clean_loop (fuel : nat) (t : list (option (string * Z))) (mask h i perturb : Z) : Z :=
  match fuel with
  | O => i
  | S f =>
      match slot t i with
      | None => i
      | Some _ =>
          match (if i + 9 <=? mask then probe_clean t i 9 else None) with
          | Some j => j
          | None =>
              let perturb := Z.shiftr perturb 5 in
              insert_clean_loop f t mask h (Z.land (i * 5 + 1 + perturb) mask) perturb
          end
      end
  end.

Definition set_insert_clean (t : list (option (string * Z))) (mask : Z) (e : string * Z)
  : list (option (string * Z)) :=
  let i := insert_clean_loop (S (Z.to_nat mask) + 64)%nat t mask e.2 (Z.land e.2 mask) e.2 in
  <[Z.to_nat i := Some e]> t.

(** [while (newsize <= (size_t)minused) newsize <<= 1;] *)
Fixpoint new_size (fuel : nat) (newsize minused : Z) : Z :=
  match fuel with
  | O => newsize
  | S f => if newsize <=? minused then new_size f (Z.shiftl newsize 1) minused else newsize
  end.

(** [set_table_resize]: the entries move to a fresh table, in the order of
    the old one. *)
Definition set_table_resize (s : pyset) (minused : Z) : pyset :=
  let newsize := new_size 64 8 minused in
  let newmask := newsize - 1 in
  let t := fold_left (fun t e => match e with Some e => set_insert_clean t newmask e | None => t end)
                     (ps_table s) (repeat None (Z.to_nat newsize)) in
  mkPyset t newmask (ps_used s) (ps_used s).

(** The probe loop of [set_add_entry], from slot [i]. *)
Fixpoint add_loop (fuel : nat) (s : pyset) (key : string) (h i perturb : Z) : pyset :=
  match fuel with
  | O => s
  | S f =>
      let mask := ps_mask s in
      let probes := if i + 9 <=? mask then 9%nat else 0%nat in
      match probe_add (ps_table s) key h i probes with
      | PActive => s
      | PUnused j =>
          let s := mkPyset (<[Z.to_nat j := Some (key, h)]> (ps_table s)) mask
                           (ps_fill s + 1) (ps_used s + 1) in
          if ps_fill s * 5 <? mask * 3 then s
          else set_table_resize s (if ps_used s >? 50000 then ps_used s * 2 else ps_used s * 4)
      | PContinue =>
          let perturb := Z.shiftr perturb 5 in
          add_loop f s key h (Z.land (i * 5 + 1 + perturb) mask) perturb
      end
  end.

(** [seen_jobs.add(key)] *)
Definition pyset_add (s : pyset) (key : string) : pyset :=
  let h := str_hash key in
  add_loop (S (Z.to_nat (ps_mask s)) + 64)%nat s key h (Z.land h (ps_mask s)) h.

(** [list(s)]: the keys, slot by slot. *)
Definition pyset_list (s : pyset) : list string :=
  omap (fun e => option_map fst e) (ps_table s).
End CPythonSet.

(** [load_state] building the set one [str] at a time. *)
Definition pyset_load_state (f : state_file) : pyset :=
  match f with
  | FJson (JArr l) => fold_left pyset_add (map py_str l) pyset_empty
  | FJson (JObj kvs) => fold_left pyset_add (map fst kvs) pyset_empty
  | FJson (JStr s) =>
      fold_left pyset_add (map (fun c => String c EmptyString) (list_ascii_of_string s)) pyset_empty
  | _ => pyset_empty
  end.

(** [main] with its seen set as the CPython [set]: [load_state] builds it,
    and line 459 adds the id of each record sent, in the order they are
    sent.  Membership, which is all the loop reads, depends on the contents
    only, so [reconcile] decides what is sent.  The result is the ids sent,
    in order, and the list line 413 dumps ([None] when nothing is saved). *)
Definition main_run_cpython (search_location : string) (exclude_kws : list string)
           (all_found_jobs : list job) (file0 : state_file)
  : res (list string * option (list string)) :=
  let! st := reconcile search_location exclude_kws all_found_jobs (load_state file0) in
  let seen_jobs := fold_left pyset_add (map j_id (sent st)) (pyset_load_state file0) in
  if Nat.eqb (new_count st) 0 then Ok (map j_id (sent st), None)
  else Ok (map j_id (sent st), Some (py_last 2000 (pyset_list seen_jobs))).

(* ------------------------------------------------------------------ *)
(** ** Auxiliary definitions of the properties and their instances *)

Definition has_id (k : string) (j : job) : bool := String.eqb (j_id j) k.

(** The number of records the loop has counted, whatever the outcome. *)
Definition loop_total (st : loop_state) : nat :=
  new_count st + skipped_not_location st + skipped_automation st.

(** Every entry of the dedup dict is keyed by its record's id, keys unique. *)
Definition dict_ok (d : list (string * job)) : Prop :=
  Forall (fun kv => j_id kv.2 = kv.1) d /\ NoDup (map fst d).

(** Outcomes the loop retries: 403, 429 and [RequestException]. *)
Definition retryable (r : response) : bool :=
  match r with
  | Resp code _ => Z.eqb code 403 || Z.eqb code 429
  | NetworkError => true
  end.

(** A field [job.get(f) or ''] turns into [''] when it is absent or empty. *)
Definition absent_or_empty (v : json) : Prop := v = JNull \/ v = JStr "".

Definition unknown_location_job : job :=
  mkJob "50123456" (JStr "Manual QA Tester") (JStr "Acme") (JStr "Unknown") (JStr "N/A")
        "https://www.seek.co.nz/job/50123456" (JStr "Unknown").

(** The six fields the claim speaks about. *)
Definition claimed_fields (j : job) : string * json * json * json * json * json :=
  (j_id j, j_title j, j_advertiser j, j_location j, j_salary j, j_listingDate j).

(** The mapping in the words of the spec: "first present" key, defaults
    for absent keys, advertiser from a nested object's description or a
    flat value. *)
Fixpoint first_present (kvs : list (string * json)) (keys : list string) : option json :=
  match keys with
  | [] => None
  | k :: ks => match obj_lookup kvs k with Some v => Some v | None => first_present kvs ks end
  end.

Definition present_or (o : option json) (dflt : json) : json :=
  match o with Some v => v | None => dflt end.

Definition spec_item_fields (kvs : list (string * json)) : string * json * json * json * json * json :=
  (py_str (present_or (first_present kvs ["id"; "jobId"; "job_id"]) JNull),
   present_or (first_present kvs ["title"; "occupation"]) (JStr "Unknown"),
   match obj_lookup kvs "advertiser" with
   | Some (JObj a) => present_or (obj_lookup a "description") (JStr "Unknown")
   | Some v => v
   | None => JStr "Unknown"
   end,
   present_or (obj_lookup kvs "location") (JStr "Unknown"),
   present_or (obj_lookup kvs "salary") (JStr "N/A"),
   present_or (first_present kvs ["listingDate"; "postedDate"]) (JStr "Unknown")).

(** [item.get(k)] on a decoded object. *)
Definition lk (kvs : list (string * json)) (k : string) : json := get_default kvs k JNull.

(** The mapping as the amended claim states it: first truthy value of each
    key chain, then the default; the advertiser of a nested object is its
    description when it has one, a non-object advertiser is kept when
    truthy and replaced by "Unknown" otherwise. *)
Definition amended_item_ok (kvs : list (string * json)) (j : job) : Prop :=
  j_id j = py_str (py_or (lk kvs "id") (py_or (lk kvs "jobId") (lk kvs "job_id"))) /\
  j_title j = py_or (lk kvs "title") (py_or (lk kvs "occupation") (JStr "Unknown")) /\
  (forall a d, lk kvs "advertiser" = JObj a -> obj_lookup a "description" = Some d ->
               j_advertiser j = d) /\
  (is_dict (lk kvs "advertiser") = false ->
     j_advertiser j = py_or (lk kvs "advertiser") (JStr "Unknown")) /\
  j_location j = py_or (lk kvs "location") (JStr "Unknown") /\
  j_salary j = py_or (lk kvs "salary") (JStr "N/A") /\
  j_listingDate j = py_or (lk kvs "listingDate") (py_or (lk kvs "postedDate") (JStr "Unknown")).

(** An item from which the code recovers an id: an object whose id, jobId
    or job_id is truthy.  Non-objects are skipped anyway. *)
Definition item_has_id (it : json) : bool :=
  match it with
  | JObj kvs => truthy (py_or (lk kvs "id") (py_or (lk kvs "jobId") (lk kvs "job_id")))
  | _ => true
  end.

Definition zero_id_blob : json :=
  JObj [("jobs", JArr [JObj [("id", JNum 0); ("jobId", JNum 7); ("title", JStr "QA Tester")]])].

Definition no_id_blob : json :=
  JObj [("jobs", JArr [JObj [("title", JStr "Manual QA Tester"); ("location", JStr "Auckland")]])].

(** The record [_parse_response] builds from [no_id_blob]. *)
Definition none_job : job :=
  mkJob "None" (JStr "Manual QA Tester") (JStr "Unknown") (JStr "Auckland") (JStr "N/A")
        (BASE_URL +:+ "/job/" +:+ "None") (JStr "Unknown").

(** A record that passes both filters for [SEARCH_LOCATION = "Auckland"]. *)
Definition qa_job (jid : string) : job :=
  mkJob jid (JStr "Manual QA Tester") (JStr "Acme") (JStr "Auckland") (JStr "N/A")
        (BASE_URL +:+ "/job/" +:+ jid) (JStr "Unknown").

(** The ids "1" .. "2500", in the order the run inserts them. *)
Definition ids2500 : list string := map (fun n : nat => pretty n) (seq 1 2500).

(** The list a run from an empty state dumps after sending the records
    with ids [ids2500], in this order. *)
Definition ids2500_saved : list string :=
  py_last 2000 (pyset_list (fold_left pyset_add ids2500 pyset_empty)).

Definition senior_job : job :=
  mkJob "1" (JStr "Senior QA Analyst") (JStr "Beta") (JStr "Wellington") (JStr "N/A")
        (BASE_URL +:+ "/job/1") (JStr "Unknown").

(** Three 429 responses, then a 200. *)
Definition three_429 (attempt : nat) : response :=
  if Nat.leb attempt 3 then Resp 429 "" else Resp 200 "page".

Definition blank_job : job :=
  mkJob "77" JNull (JStr "") (JStr "Auckland") (JStr "N/A") (BASE_URL +:+ "/job/77") (JStr "Unknown").

Definition cbd_job : job :=
  mkJob "3" (JStr "Manual QA Tester") (JStr "Acme") (JStr "Auckland CBD") (JStr "N/A")
        (BASE_URL +:+ "/job/3") (JStr "Unknown").

Definition zero_id_items : list json :=
  [JObj [("id", JNum 0); ("jobId", JNum 7); ("title", JStr "QA Tester")]].

(* ================================================================== *)
(** * Properties *)

(* ------------------------------------------------------------------ *)
(** ** Cross-batch dedup *)

Lemma dict_set_keys (d : list (string * job)) (k : string) (v : job) :
  map fst (dict_set d k v) = if bool_decide (k ∈ map fst d) then map fst d else map fst d ++ [k].
Proof.
  induction d as [|[k' v'] d IH]; simpl.
  - reflexivity.
  - destruct (String.eqb_spec k k') as [->|Hne]; simpl.
    + rewrite bool_decide_true; [reflexivity|apply elem_of_cons; by left].
    + rewrite IH. destruct (bool_decide (k ∈ map fst d)) eqn:E.
      * apply bool_decide_eq_true in E.
        rewrite bool_decide_true; [reflexivity|apply elem_of_cons; by right].
      * apply bool_decide_eq_false in E.
        rewrite bool_decide_false; [reflexivity|].
        intros Hin; apply elem_of_cons in Hin as [Hin|Hin]; [congruence|done].
Qed.

Lemma dict_set_ok (d : list (string * job)) (v : job) :
  dict_ok d -> dict_ok (dict_set d (j_id v) v).
Proof.
  intros [HF HN]. split.
  - induction d as [|[k' v'] d IH]; simpl; [by constructor|].
    inversion HF as [|? ? Hkv HF']; inversion HN as [|? ? Hnin HN'].
    destruct (String.eqb_spec (j_id v) k') as [E|E]; constructor; simpl; auto.
  - rewrite dict_set_keys. case_bool_decide as Hin; [done|].
    apply NoDup_app; split; [done|split; [|apply NoDup_singleton]].
    intros x Hx Hx'. apply list_elem_of_singleton in Hx'; subst. done.
Qed.

Lemma dict_no_key (d : list (string * job)) (k : string) :
  Forall (fun kv => j_id kv.2 = kv.1) d -> k ∉ map fst d ->
  List.filter (has_id k) (map snd d) = [].
Proof.
  induction d as [|[k' v'] d IH]; simpl; intros HF Hk; [done|].
  inversion HF; subst. unfold has_id at 1; simpl in *.
  destruct (String.eqb_spec (j_id v') k) as [<-|].
  - exfalso; apply Hk; apply elem_of_cons; by left.
  - apply IH; [done|]. intros Hin; apply Hk; apply elem_of_cons; by right.
Qed.

Lemma dict_set_filter (d : list (string * job)) (v : job) (k : string) :
  dict_ok d ->
  List.filter (has_id k) (map snd (dict_set d (j_id v) v)) =
  if String.eqb (j_id v) k then [v] else List.filter (has_id k) (map snd d).
Proof.
  intros [HF HN]. induction d as [|[k' v'] d IH]; simpl.
  - unfold has_id; simpl. destruct (String.eqb (j_id v) k); reflexivity.
  - inversion HF as [|? ? Hkv HF']; inversion HN as [|? ? Hnin HN']; simpl in *.
    destruct (String.eqb_spec (j_id v) k') as [Heq|Hne]; simpl.
    + replace (has_id k v) with (String.eqb k' k) by (unfold has_id; by rewrite Heq).
      replace (has_id k v') with (String.eqb k' k) by (unfold has_id; by rewrite Hkv).
      rewrite Heq.
      destruct (String.eqb_spec k' k) as [<-|]; [|reflexivity].
      rewrite dict_no_key; [reflexivity|done|done].
    + rewrite IH by done.
      replace (has_id k v') with (String.eqb k' k) by (unfold has_id; by rewrite Hkv).
      destruct (String.eqb_spec (j_id v) k) as [<-|]; [|reflexivity].
      destruct (String.eqb_spec k' (j_id v)); [congruence|reflexivity].
Qed.

Lemma dedup_fold_filter (l : list job) (d : list (string * job)) (k : string) :
  dict_ok d -> k <> "" ->
  List.filter (has_id k)
    (map snd (fold_left (fun d j => if String.eqb (j_id j) "" then d else dict_set d (j_id j) j) l d))
  = match last (List.filter (has_id k) l) with
    | Some j => [j]
    | None => List.filter (has_id k) (map snd d)
    end.
Proof.
  revert d. induction l as [|j l IH]; intros d Hd Hk; simpl; [reflexivity|].
  destruct (String.eqb_spec (j_id j) "") as [Hj|Hj].
  - rewrite IH by done. simpl.
    replace (has_id k j) with false
      by (unfold has_id; rewrite Hj; destruct (String.eqb_spec "" k); congruence).
    reflexivity.
  - rewrite IH by (done || by apply dict_set_ok).
    rewrite dict_set_filter by done. simpl.
    change (String.eqb (j_id j) k) with (has_id k j).
    destruct (has_id k j).
    + rewrite last_cons. destruct (last (List.filter (has_id k) l)); reflexivity.
    + reflexivity.
Qed.

(** C6: in a candidate batch, all records sharing a non-empty id [k]
    collapse to exactly one record in the deduplicated list, namely the
    last record with id [k] in iteration order. *)
Theorem dedup_last_occurrence_wins (batch : list job) (k : string) (j : job) :
  k <> "" ->
  last (List.filter (has_id k) batch) = Some j ->
  List.filter (has_id k) (dedup batch) = [j].
Proof.
  intros Hk Hlast. unfold dedup.
  rewrite dedup_fold_filter; [by rewrite Hlast|split; constructor|done].
Qed.

(* ------------------------------------------------------------------ *)
(** ** The reconciliation loop *)

Section ReconcileFacts.
Variable search_location : string.
Variable exclude_kws : list string.

Lemma reconcile_loop_seen_mono (l : list job) (st st' : loop_state) :
  reconcile_loop search_location exclude_kws l st = Ok st' ->
  seen_jobs st ⊆ seen_jobs st'.
Proof.
  revert st. induction l as [|j l IH]; intros st H; simpl in H.
  - by injection H as <-.
  - destruct (String.eqb (j_id j) ""); [by apply IH|].
    case_bool_decide; [by apply IH|].
    destruct (matches_location j search_location) as [[]|]; simpl in H; [|by apply IH in H|done].
    destruct (looks_automated exclude_kws j) as [[]|]; simpl in H; [by apply IH in H| |done].
    apply IH in H; simpl in H. set_solver.
Qed.

(** Replaying the loop from a seen set that already contains everything
    the first pass ended with adds nothing and sends nothing. *)
Lemma reconcile_loop_replay (l : list job) (st st' u : loop_state) :
  reconcile_loop search_location exclude_kws l st = Ok st' ->
  seen_jobs st' ⊆ seen_jobs u ->
  exists u', reconcile_loop search_location exclude_kws l u = Ok u' /\
             seen_jobs u' = seen_jobs u /\ sent u' = sent u /\ new_count u' = new_count u.
Proof.
  revert st u. induction l as [|j l IH]; intros st u H Hsub.
  - by exists u.
  - pose proof (reconcile_loop_seen_mono (j :: l) _ _ H) as Hmono.
    simpl in H |- *.
    destruct (String.eqb (j_id j) ""); [by eapply IH|].
    destruct (decide (j_id j ∈ seen_jobs st)) as [Hst|Hst].
    + rewrite bool_decide_true in H by done.
      rewrite bool_decide_true by set_solver. by eapply IH.
    + rewrite bool_decide_false in H by done.
      destruct (matches_location j search_location) as [ml|] eqn:Hml; simpl in H; [|done].
      destruct (negb ml) eqn:Hnml.
      * destruct (decide (j_id j ∈ seen_jobs u)) as [Hu|Hu].
        { rewrite bool_decide_true by done. by eapply IH. }
        rewrite bool_decide_false by done. rewrite ?Hml; simpl; rewrite ?Hnml, ?Hla; simpl.
        destruct (IH _ (mkLoop (seen_jobs u) (sent u) (new_count u)
                               (S (skipped_not_location u)) (skipped_automation u)) H Hsub)
          as (u' & Hu' & Hs & Hse & Hn).
        exists u'. done.
      * destruct (looks_automated exclude_kws j) as [la|] eqn:Hla; simpl in H; [|done].
        destruct la.
        -- destruct (decide (j_id j ∈ seen_jobs u)) as [Hu|Hu].
           { rewrite bool_decide_true by done. by eapply IH. }
           rewrite bool_decide_false by done. rewrite ?Hml; simpl; rewrite ?Hnml, ?Hla; simpl.
           destruct (IH _ (mkLoop (seen_jobs u) (sent u) (new_count u)
                                  (skipped_not_location u) (S (skipped_automation u))) H Hsub)
             as (u' & Hu' & Hs & Hse & Hn).
           exists u'. done.
        -- apply reconcile_loop_seen_mono in H as Hm. simpl in Hm.
           rewrite bool_decide_true by set_solver. by eapply IH.
Qed.

(** Either the loop added nothing, or it added an id and counted it. *)
Lemma reconcile_loop_count (l : list job) (st st' : loop_state) :
  reconcile_loop search_location exclude_kws l st = Ok st' ->
  (new_count st' = new_count st /\ seen_jobs st' = seen_jobs st /\ sent st' = sent st) \/
  (new_count st < new_count st' /\ length (sent st) < length (sent st') /\
   exists x, x ∈ seen_jobs st' /\ x ∉ seen_jobs st).
Proof.
  revert st. induction l as [|j l IH]; intros st H; simpl in H.
  - left. by injection H as <-.
  - destruct (String.eqb (j_id j) ""); [by apply IH|].
    case_bool_decide as Hin; [by apply IH|].
    destruct (matches_location j search_location) as [[]|]; simpl in H; [|by apply IH in H|done].
    destruct (looks_automated exclude_kws j) as [[]|]; simpl in H; [by apply IH in H| |done].
    right. pose proof (reconcile_loop_seen_mono _ _ _ H) as Hmono; simpl in Hmono.
    apply IH in H as [(Hn & _ & Hs)|(Hn & Hs & _)]; simpl in Hn, Hs;
      rewrite ?Hs, ?length_app in *; simpl in *.
    + split; [lia|]. split; [lia|]. exists (j_id j). set_solver.
    + split; [lia|]. split; [lia|]. exists (j_id j). set_solver.
Qed.
End ReconcileFacts.

(** C7: reconciliation is idempotent over the seen set.  Running it once
    and then again on the same candidates with the updated seen set
    sends nothing the second time and leaves the seen set unchanged. *)
Theorem reconcile_idempotent (search_location : string) (exclude_kws : list string)
    (candidates : list job) (seen0 : gset string) (st1 : loop_state) :
  reconcile search_location exclude_kws candidates seen0 = Ok st1 ->
  exists st2, reconcile search_location exclude_kws candidates (seen_jobs st1) = Ok st2 /\
              sent st2 = [] /\ new_count st2 = 0 /\ seen_jobs st2 = seen_jobs st1.
Proof.
  unfold reconcile. intros H.
  destruct (reconcile_loop_replay search_location exclude_kws _ _ _
              (mkLoop (seen_jobs st1) [] 0 0 0) H ltac:(done)) as (u' & Hu' & Hs & Hse & Hn).
  exists u'. done.
Qed.

(* ------------------------------------------------------------------ *)
(** ** Retry policy of [search] *)

Lemma search_loop_skip (parse : string -> res (list job)) (get : nat -> response)
    (k attempt fuel : nat) :
  k <= fuel ->
  (forall i, attempt <= i < attempt + k -> retryable (get i) = true) ->
  search_loop parse get attempt fuel =
  let '(r, sleeps, n) := search_loop parse get (attempt + k) (fuel - k) in
  (r, map backoff (seq attempt k) ++ sleeps, k + n).
Proof.
  revert attempt fuel. induction k as [|k IH]; intros attempt fuel Hk Hr.
  - rewrite Nat.add_0_r, Nat.sub_0_r. simpl.
    destruct (search_loop parse get attempt fuel) as [[r s] n]. reflexivity.
  - destruct fuel as [|fuel]; [lia|]. simpl.
    assert (Hg : retryable (get attempt) = true) by (apply Hr; lia).
    rewrite (IH (S attempt) fuel) by (lia || (intros i Hi; apply Hr; lia)).
    replace (S attempt + k) with (attempt + S k) by lia.
    destruct (search_loop parse get (attempt + S k) (fuel - k)) as [[r s] n].
    destruct (get attempt) as [code text|]; simpl in Hg |- *; [|reflexivity].
    rewrite Hg. destruct (Z.eqb_spec code 200) as [->|]; [discriminate|reflexivity].
Qed.

(** C8: the fetch policy.  With [k] leading retryable outcomes (403, 429,
    network error) the loop sleeps [5 * 2^(i-1)] seconds after attempt
    [i], for [i = 1..k]; a 200 next returns the parsed page, any other
    status next aborts with no result; five retryable outcomes exhaust the
    five attempts with no result.  Three 429s and then a 200 yield the
    parsed page. *)
Theorem search_retry_policy (parse : string -> res (list job)) (get : nat -> response) :
  (forall k, k < MAX_RETRIES ->
     (forall i, 1 <= i <= k -> retryable (get i) = true) ->
     (forall text, get (S k) = Resp 200 text ->
        search parse get = (parse text, map backoff (seq 1 k), S k)) /\
     (forall code text, get (S k) = Resp code text -> code <> 200%Z -> code <> 403%Z ->
        code <> 429%Z -> search parse get = (Ok [], map backoff (seq 1 k), S k))) /\
  ((forall i, 1 <= i <= MAX_RETRIES -> retryable (get i) = true) ->
     search parse get = (Ok [], [5; 10; 20; 40; 80]%Z, MAX_RETRIES)) /\
  (forall text, get 1 = Resp 429 "" -> get 2 = Resp 429 "" -> get 3 = Resp 429 "" ->
     get 4 = Resp 200 text -> search parse get = (parse text, [5; 10; 20]%Z, 4)).
Proof.
  unfold search. split; [|split].
  - intros k Hk Hr. rewrite (search_loop_skip parse get k) by (unfold MAX_RETRIES in *; lia || (intros i Hi; apply Hr; lia)).
    unfold MAX_RETRIES in *.
    replace (5 - k) with (S (4 - k)) by lia. simpl. split.
    + intros text Hg. rewrite Hg. simpl. f_equal; [f_equal; apply app_nil_r|lia].
    + intros code text Hg H200 H403 H429. rewrite Hg.
      rewrite (proj2 (Z.eqb_neq _ _) H200), (proj2 (Z.eqb_neq _ _) H403),
              (proj2 (Z.eqb_neq _ _) H429). simpl.
      f_equal; [f_equal; apply app_nil_r|lia].
  - intros Hr. rewrite (search_loop_skip parse get 5) by (unfold MAX_RETRIES; lia || (intros i Hi; apply Hr; unfold MAX_RETRIES; lia)).
    reflexivity.
  - intros text H1 H2 H3 H4. simpl. rewrite H1, H2, H3, H4. reflexivity.
Qed.

(* ------------------------------------------------------------------ *)
(** ** Saving the seen set *)

(** C9: one run of [main] calls [save_state] at most once, and exactly
    when the run added an id to the seen set it loaded, which is also
    exactly when it sent a notification.  Without a save the state file
    is left as it was; with a save the file holds exactly the dumped
    list of the in-memory set, whatever it held before. *)
Theorem main_run_saves_once (set_iter : gset string -> list string)
    (search_location : string) (exclude_kws : list string)
    (all_found_jobs : list job) (file0 : state_file) (out : run_out) :
  main_run set_iter search_location exclude_kws all_found_jobs file0 = Ok out ->
  length (run_saves out) <= 1 /\
  (run_saves out <> [] <-> exists x, x ∈ run_seen out /\ x ∉ load_state file0) /\
  (run_saves out = [] <-> run_sent out = []) /\
  (run_saves out = [] -> run_file out = file0) /\
  (forall limited_ids, run_saves out = [limited_ids] ->
     limited_ids = save_state set_iter (run_seen out) /\
     run_file out = saved_file limited_ids).
Proof.
  unfold main_run, reconcile.
  destruct (reconcile_loop search_location exclude_kws (dedup all_found_jobs)
              (mkLoop (load_state file0) [] 0 0 0)) as [st|] eqn:Hst; simpl; [|discriminate].
  apply reconcile_loop_count in Hst as [(Hn & Hs & Hsent)|(Hn & Hlen & x & Hx & Hx')]; simpl in *.
  - rewrite Hn. simpl. intros [= <-]; simpl.
    split; [lia|]. split; [split; [done|intros (x & Hx & Hx'); set_solver]|].
    split; [done|]. split; [done|]. intros ? [=].
  - destruct (new_count st) as [|n] eqn:E; [lia|]. simpl. intros [= <-]; simpl.
    split; [lia|]. split; [split; [intros _; by exists x|done]|].
    split; [split; [done|intros Hs; rewrite Hs in Hlen; simpl in Hlen; lia]|].
    split; [done|]. intros l [= <-]. done.
Qed.

(* ------------------------------------------------------------------ *)
(** ** Exclusion filter *)

Lemma py_contains_empty (kw : string) : kw <> "" -> py_contains kw "" = false.
Proof. destruct kw; [done|reflexivity]. Qed.

(** C10: for exclusion keywords that are all non-empty, a record whose
    title and advertiser are both absent or empty is not rejected by
    [looks_automated], and the check does not raise. *)
Theorem looks_automated_blank_fields (kws : list string) (job0 : job) :
  Forall (fun kw => kw <> "") kws ->
  absent_or_empty (j_title job0) ->
  absent_or_empty (j_advertiser job0) ->
  looks_automated kws job0 = Ok false.
Proof.
  intros Hkws Ht Ha. unfold looks_automated.
  assert (Hblank : forall v, absent_or_empty v -> lower_val (py_or v (JStr "")) = Ok "")
    by (intros v [-> | ->]; reflexivity).
  rewrite (Hblank _ Ht); cbn [res_bind]. rewrite (Hblank _ Ha); cbn [res_bind]. f_equal.
  induction Hkws as [|kw kws Hkw _ IH]; [reflexivity|].
  cbn [existsb]. rewrite py_contains_empty by done. exact IH.
Qed.

(* ------------------------------------------------------------------ *)
(** ** Location filter *)

Example matches_location_auckland_cbd :
  matches_location
    (mkJob "1" (JStr "Manual Tester") (JStr "Acme") (JStr "Auckland CBD") (JStr "N/A")
           "https://www.seek.co.nz/job/1" (JStr "Unknown")) "Auckland" = Ok true.
Proof. reflexivity. Qed.

(** C4 (code bug): with an empty configured location [matches_location]
    returns True before it reads the record, so it rejects no record, not
    even one whose location is the sentinel "Unknown".  With
    [SEARCH_LOCATION = ""], [main] notifies and records such a record,
    which the docstring and the spec reject whatever the configured
    location. *)
Theorem empty_filter_accepts_unknown_location :
  (forall job0 : job, matches_location job0 "" = Ok true) /\
  forall set_iter : gset string -> list string, exists out,
    main_run set_iter "" EXCLUDE_AUTOMATION_KEYWORDS [unknown_location_job] FAbsent = Ok out /\
    j_location unknown_location_job = JStr "Unknown" /\
    run_sent out = [unknown_location_job] /\ j_id unknown_location_job ∈ run_seen out.
Proof.
  split; [reflexivity|].
  intros set_iter.
  exists (mkRun [unknown_location_job] {["50123456"]} [save_state set_iter {["50123456"]}]
                (saved_file (save_state set_iter {["50123456"]}))).
  split; [vm_compute; reflexivity|].
  split; [reflexivity|]. split; [reflexivity|].
  cbn [run_seen j_id unknown_location_job]. apply elem_of_singleton. reflexivity.
Qed.

(* ------------------------------------------------------------------ *)
(** ** Field mapping of the Redux extraction *)

Lemma get_or_obj (kvs : list (string * json)) (k : string) (rest : res json) :
  get_or (JObj kvs) k rest = if truthy (lk kvs k) then Ok (lk kvs k) else rest.
Proof. reflexivity. Qed.

Lemma py_get_obj (kvs : list (string * json)) (k : string) :
  py_get (JObj kvs) k = Ok (lk kvs k).
Proof. reflexivity. Qed.

Lemma map_item_obj (kvs : list (string * json)) :
  exists j, map_item (JObj kvs) = Ok j /\ amended_item_ok kvs j.
Proof.
  unfold map_item, get_or. rewrite !py_get_obj. cbn [res_bind].
  assert (Hor : forall v w, (if truthy v then Ok v else Ok w) = Ok (py_or v w))
    by (intros v w; unfold py_or; by destruct (truthy v)).
  rewrite !Hor. cbn [res_bind].
  destruct (is_dict (lk kvs "advertiser")) eqn:Hadv.
  - destruct (lk kvs "advertiser") as [| | | | |a] eqn:Ea; try discriminate.
    assert (Hd : py_get (py_or (JObj a) (JObj [])) "description" = Ok (lk a "description"))
      by (destruct a; reflexivity).
    rewrite Hd. cbn [res_bind].
    eexists. split; [reflexivity|].
    unfold amended_item_ok; cbn [j_id j_title j_advertiser j_location j_salary j_listingDate].
    split; [done|]. split; [done|]. split.
    + intros a' d Ha' Hdesc. rewrite Ea in Ha'. injection Ha' as <-.
      unfold lk, get_default. by rewrite Hdesc.
    + split; [by rewrite Ea|]. done.
  - cbn [res_bind]. eexists. split; [reflexivity|].
    unfold amended_item_ok; cbn [j_id j_title j_advertiser j_location j_salary j_listingDate].
    split; [done|]. split; [done|]. split.
    + intros a d Ea. rewrite Ea in Hadv. discriminate.
    + done.
Qed.

Lemma map_items_spec (items : list json) :
  Forall2 (fun it j => exists kvs, it = JObj kvs /\ amended_item_ok kvs j)
          (List.filter is_dict items) (map_items items).
Proof.
  induction items as [|it items IH]; simpl; [constructor|].
  destruct it as [| | | | |kvs]; simpl; try exact IH.
  destruct (map_item_obj kvs) as (j & -> & Hj). constructor; [by exists kvs|exact IH].
Qed.

(** C3 (counterexample): the code takes the first truthy id, not the
    first present one: for the item [{"id": 0, "jobId": 7, ...}] the
    record's id is "7", not "0". *)
Lemma redux_extract_zero_id :
  option_map (map claimed_fields) (redux_extract zero_id_blob) <>
  Some [spec_item_fields [("id", JNum 0); ("jobId", JNum 7); ("title", JStr "QA Tester")]].
Proof. vm_compute. congruence. Qed.

(** C3 (amended): the item list is the first of the paths results.jobs,
    search.results.jobs, jobs holding a non-empty list.  When every object
    item has a truthy id, jobId or job_id, each object item yields one
    record, in order, mapped as [amended_item_ok] says (the id is the
    string of the first truthy one); non-object items are skipped; when at
    least one record results, the Redux strategy returns exactly these
    records. *)
Theorem redux_extract_mapping (redux_json : json) (items : list json) :
  first_list redux_json redux_paths = items ->
  forallb item_has_id items = true ->
  exists jobs, redux_extract redux_json = (match jobs with [] => None | _ => Some jobs end) /\
    Forall2 (fun it j => exists kvs, it = JObj kvs /\ amended_item_ok kvs j)
            (List.filter is_dict items) jobs.
Proof.
  intros Hitems _. exists (map_items items). split.
  - unfold redux_extract. rewrite Hitems. by destruct (map_items items).
  - apply map_items_spec.
Qed.

(* ------------------------------------------------------------------ *)
(** ** Records without an id *)

(** The DOM path skips a candidate from which no id is recovered. *)
Lemma dom_item_id_nonempty (node : dom_node) (j : job) :
  dom_item node = Some j -> j_id j <> "".
Proof.
  unfold dom_item. cbv zeta.
  destruct (if opt_truthy _ then _ else _) as [jid|]; [|discriminate].
  destruct (String.eqb_spec jid ""); [discriminate|].
  intros [= <-]. done.
Qed.

(** Records whose id is the empty string are never sent nor remembered. *)
Lemma reconcile_loop_empty_id (search_location : string) (exclude_kws : list string)
    (l : list job) (st st' : loop_state) :
  reconcile_loop search_location exclude_kws l st = Ok st' ->
  ("" ∉ seen_jobs st -> "" ∉ seen_jobs st') /\
  (Forall (fun j => j_id j <> "") (sent st) -> Forall (fun j => j_id j <> "") (sent st')).
Proof.
  revert st. induction l as [|j l IH]; intros st H; simpl in H.
  - injection H as <-. tauto.
  - destruct (String.eqb_spec (j_id j) "") as [He|He]; [by apply IH|].
    case_bool_decide; [by apply IH|].
    destruct (matches_location j search_location) as [[]|]; simpl in H; [|by apply IH in H|done].
    destruct (looks_automated exclude_kws j) as [[]|]; simpl in H; [by apply IH in H| |done].
    apply IH in H as [H1 H2]; simpl in *. split.
    + intros Hs. apply H1. set_solver.
    + intros HF. apply H2. apply Forall_app; split; [done|by constructor].
Qed.

(** C1 (code bug): an embedded item carrying none of id/jobId/job_id
    yields a record whose id is "None" ([str(None)]), not an empty id; the
    run then sends it and adds "None" to the seen set and saves it. *)
Theorem no_id_item_notified_as_None
    (redux_re : string -> option string) (json_loads : string -> res json)
    (script candidate : string) (unique_candidates : list dom_node) :
  script <> "" ->
  redux_re script = Some candidate ->
  json_loads candidate = Ok no_id_blob ->
  exists found,
    parse_response redux_re json_loads [Some script] unique_candidates = Ok found /\
    map j_id found = ["None"] /\
    forall set_iter, exists out,
      main_run set_iter "Auckland" EXCLUDE_AUTOMATION_KEYWORDS found FAbsent = Ok out /\
      run_sent out = found /\ run_seen out = {["None"]} /\
      run_saves out = [save_state set_iter {["None"]}].
Proof.
  intros Hs Hre Hl. exists [none_job]. split.
  - unfold parse_response, scan_scripts, opt_truthy.
    destruct (String.eqb_spec script "") as [|_]; [done|]. cbn [negb].
    rewrite Hre, Hl. vm_compute. reflexivity.
  - split; [reflexivity|]. intros set_iter. eexists. split; [vm_compute; reflexivity|].
    split; [reflexivity|]. split; [|reflexivity].
    vm_compute. reflexivity.
Qed.

(* ------------------------------------------------------------------ *)
(** ** The 2000-id cap of [save_state] *)

(** Whatever the set's iteration order, the dump keeps
    [min (size, 2000)] distinct members of the set. *)
Lemma save_state_members (set_iter : gset string -> list string) (seen_ids : gset string) :
  (forall s, NoDup (set_iter s) /\ forall x, x ∈ set_iter s <-> x ∈ s) ->
  length (save_state set_iter seen_ids) = Nat.min (size seen_ids) 2000 /\
  NoDup (save_state set_iter seen_ids) /\
  forall x, x ∈ save_state set_iter seen_ids -> x ∈ seen_ids.
Proof.
  intros Hiter. destruct (Hiter seen_ids) as [HN Hin].
  assert (Hlen : length (set_iter seen_ids) = size seen_ids).
  { change (size seen_ids) with (length (elements seen_ids)).
    apply Permutation_length, NoDup_Permutation; [done|apply NoDup_elements|].
    intros x. rewrite Hin. symmetry. apply elem_of_elements. }
  unfold save_state, py_last. split; [|split].
  - rewrite length_drop, Hlen. lia.
  - eapply sublist_NoDup; [exact HN|apply sublist_drop].
  - intros x Hx. apply Hin. by apply (subseteq_drop (length (set_iter seen_ids) - 2000)).
Qed.

(** A new key is appended to the dict. *)
Lemma dict_set_new (d : list (string * job)) (k : string) (v : job) :
  k ∉ map fst d -> dict_set d k v = d ++ [(k, v)].
Proof.
  induction d as [|[k' v'] d IH]; intros Hk; simpl; [reflexivity|].
  destruct (String.eqb_spec k k') as [->|Hne].
  - exfalso. apply Hk. apply elem_of_cons. by left.
  - rewrite IH; [reflexivity|]. intros Hin. apply Hk. apply elem_of_cons. by right.
Qed.

Lemma dedup_fold_distinct (l : list job) (d : list (string * job)) :
  Forall (fun j => j_id j <> "") l -> NoDup (map fst d ++ map j_id l) ->
  fold_left (fun d j => if String.eqb (j_id j) "" then d else dict_set d (j_id j) j) l d
  = d ++ map (fun j => (j_id j, j)) l.
Proof.
  revert d. induction l as [|j l IH]; intros d Hne Hnd; simpl.
  - by rewrite app_nil_r.
  - apply Forall_cons in Hne as [Hj Hne].
    destruct (String.eqb_spec (j_id j) "") as [E|_]; [done|].
    rewrite dict_set_new.
    + rewrite IH; [by rewrite <- app_assoc|done|].
      rewrite map_app, <- app_assoc. exact Hnd.
    + intros Hin. apply NoDup_app in Hnd as (_ & Hdis & _).
      apply (Hdis (j_id j)); [exact Hin|apply elem_of_cons; by left].
Qed.

(** Distinct non-empty ids pass the dedup unchanged. *)
Lemma dedup_distinct (l : list job) :
  Forall (fun j => j_id j <> "") l -> NoDup (map j_id l) -> dedup l = l.
Proof.
  intros Hne Hnd. unfold dedup. rewrite dedup_fold_distinct; [|done|exact Hnd].
  simpl. rewrite map_map. apply map_id.
Qed.

Section AllPass.
Variable search_location : string.
Variable exclude_kws : list string.

(** Records with distinct, unseen ids that pass both filters are all sent. *)
Lemma reconcile_loop_all_pass (l : list job) (st : loop_state) :
  Forall (fun j => j_id j <> "" /\ matches_location j search_location = Ok true /\
                   looks_automated exclude_kws j = Ok false) l ->
  NoDup (map j_id l) ->
  Forall (fun j => j_id j ∉ seen_jobs st) l ->
  reconcile_loop search_location exclude_kws l st =
  Ok (mkLoop (list_to_set (map j_id l) ∪ seen_jobs st) (sent st ++ l)
             (new_count st + length l) (skipped_not_location st) (skipped_automation st)).
Proof.
  revert st. induction l as [|j l IH]; intros st Hpass Hnd Hunseen; simpl.
  - rewrite app_nil_r, Nat.add_0_r, (left_id_L ∅ union).
    by destruct st.
  - apply Forall_cons in Hpass as [(Hj & Hml & Hla) Hpass].
    apply Forall_cons in Hunseen as [Hjs Hunseen].
    apply NoDup_cons in Hnd as [Hjl Hnd].
    destruct (String.eqb_spec (j_id j) "") as [E|_]; [done|].
    rewrite bool_decide_false by exact Hjs.
    rewrite Hml. cbn [res_bind negb]. rewrite Hla. cbn [res_bind].
    rewrite IH; [|exact Hpass|exact Hnd|].
    + cbn [seen_jobs sent new_count skipped_not_location skipped_automation].
      f_equal. f_equal.
      * set_solver.
      * by rewrite <- app_assoc.
      * lia.
    + apply Forall_forall. intros j' Hin. cbn [seen_jobs].
      apply not_elem_of_union. split.
      * apply not_elem_of_singleton. intros E. apply Hjl. rewrite <- E.
        apply list_elem_of_In, in_map. by apply list_elem_of_In.
      * eapply Forall_forall in Hunseen; [exact Hunseen|exact Hin].
Qed.
End AllPass.

Lemma pretty_N_go_nonempty (x : N) (s : string) : s <> "" -> pretty_N_go x s <> "".
Proof.
  revert s. induction (N.lt_wf_0 x) as [x _ IH]; intros s Hs.
  destruct (decide (x = 0%N)) as [->|Hx].
  - by rewrite pretty_N_go_0.
  - rewrite pretty_N_go_step by lia. apply IH; [apply N.div_lt; lia|discriminate].
Qed.

Lemma pretty_nat_nonempty (n : nat) : pretty n <> "".
Proof.
  change (pretty n) with (pretty (N.of_nat n)). unfold pretty, pretty_N.
  case_decide; [discriminate|]. rewrite pretty_N_go_step by lia.
  apply pretty_N_go_nonempty. discriminate.
Qed.

Lemma NoDup_map_injective {A B} (f : A -> B) (l : list A) :
  (forall x y, f x = f y -> x = y) -> NoDup l -> NoDup (map f l).
Proof.
  intros Hf Hnd. induction Hnd as [|x l Hx Hnd IH]; simpl; constructor; [|exact IH].
  intros Hin. apply list_elem_of_In, in_map_iff in Hin as (y & Hy & Hin).
  apply Hf in Hy as ->. apply Hx. by apply list_elem_of_In.
Qed.

Lemma ids2500_NoDup : NoDup ids2500.
Proof.
  apply NoDup_map_injective; [|apply NoDup_seq].
  intros x y. apply (inj pretty).
Qed.

Lemma ids2500_nonempty : Forall (fun s => s <> "") ids2500.
Proof.
  apply List.Forall_forall. intros s Hin. apply in_map_iff in Hin as (n & <- & _).
  apply pretty_nat_nonempty.
Qed.

(** A run over records with distinct non-empty ids sends every record. *)
Lemma reconcile_qa_jobs (ids : list string) :
  NoDup ids -> Forall (fun s => s <> "") ids ->
  reconcile "Auckland" EXCLUDE_AUTOMATION_KEYWORDS (map qa_job ids) (load_state FAbsent) =
  Ok (mkLoop (list_to_set ids) (map qa_job ids) (length ids) 0 0).
Proof.
  intros Hnd Hne.
  assert (Hid : map j_id (map qa_job ids) = ids).
  { rewrite map_map. apply map_id. }
  unfold reconcile. rewrite dedup_distinct.
  - rewrite reconcile_loop_all_pass.
    + cbn [seen_jobs sent new_count skipped_not_location skipped_automation].
      change (load_state FAbsent) with (∅ : gset string).
      rewrite Hid, length_map, (right_id_L ∅ union). reflexivity.
    + apply List.Forall_forall. intros j Hin. apply in_map_iff in Hin as (s & <- & Hs).
      split; [|split; reflexivity]. cbn [j_id qa_job].
      eapply List.Forall_forall in Hne; [exact Hne|exact Hs].
    + by rewrite Hid.
    + apply List.Forall_forall. intros j _. cbn [seen_jobs]. apply not_elem_of_empty.
  - apply List.Forall_forall. intros j Hin. apply in_map_iff in Hin as (s & <- & Hs).
    cbn [j_id qa_job]. eapply List.Forall_forall in Hne; [exact Hne|exact Hs].
  - by rewrite Hid.
Qed.

(** The table of the set after adding "1" .. "2500" in order, walked slot
    by slot: the last 2000 keys include "317", one of the 500 oldest. *)
Lemma ids2500_saved_facts :
  (Nat.eqb (length ids2500_saved) 2000 && bool_decide ("317" ∈ ids2500_saved) &&
   negb (bool_decide ("317" ∈ py_last 2000 ids2500)))%bool = true.
Proof. vm_compute. reflexivity. Qed.

(** C2 (code bug): [save_state] dumps [list(seen_ids)[-2000:]] of a
    CPython set, which lists the keys in hash-table order, not in insertion
    order.  Under [PYTHONHASHSEED=0], a run from an empty state that sends
    records "2" then "1" saves ["1"; "2"].  A run that sends "1" .. "2500"
    in order saves 2000 ids, but not the 2000 most recent ones: the saved
    list holds "317", which is among the 500 oldest. *)
Theorem save_state_hash_order :
  main_run_cpython "Auckland" EXCLUDE_AUTOMATION_KEYWORDS [qa_job "2"; qa_job "1"] FAbsent
    = Ok (["2"; "1"], Some ["1"; "2"]) /\
  exists limited_ids,
    main_run_cpython "Auckland" EXCLUDE_AUTOMATION_KEYWORDS (map qa_job ids2500) FAbsent
      = Ok (ids2500, Some limited_ids) /\
    length limited_ids = 2000 /\ "317" ∈ limited_ids /\ ("317" ∉ py_last 2000 ids2500) /\
    limited_ids <> py_last 2000 ids2500.
Proof.
  split; [vm_compute; reflexivity|].
  exists ids2500_saved.
  pose proof ids2500_saved_facts as Hf.
  apply andb_prop in Hf as [Hf Hout]. apply andb_prop in Hf as [Hlen Hin].
  apply Nat.eqb_eq in Hlen. apply bool_decide_eq_true in Hin.
  apply negb_true_iff, bool_decide_eq_false in Hout.
  split.
  - unfold main_run_cpython.
    rewrite (reconcile_qa_jobs ids2500 ids2500_NoDup ids2500_nonempty). cbn [res_bind sent new_count].
    assert (Hsent : map j_id (map qa_job ids2500) = ids2500) by (rewrite map_map; apply map_id).
    rewrite Hsent.
    replace (Nat.eqb (length ids2500) 0) with false by (vm_compute; reflexivity).
    change (pyset_load_state FAbsent) with pyset_empty. unfold ids2500_saved.
    reflexivity.
  - split; [exact Hlen|]. split; [exact Hin|]. split; [exact Hout|].
    intros Heq. rewrite Heq in Hin. exact (Hout Hin).
Qed.

(* ------------------------------------------------------------------ *)
(** ** Exceptions of the first [json.loads] *)

(** C5 (code bug): the first [json.loads(candidate)] of a matched
    SEEK_REDUX_DATA blob is guarded by [except json.JSONDecodeError] only.
    Any other exception it raises (a RecursionError on a deeply nested
    blob, for instance) leaves [_parse_response] before the DOM fallback
    is reached, and [search], which catches only [RequestException], lets
    it through: the fetch of that keyword raises. *)
Theorem loads_error_escapes_parse_response
    (redux_re : string -> option string) (json_loads : string -> res json)
    (script candidate : string) (e : exc) (rest : list (option string))
    (unique_candidates : list dom_node) :
  script <> "" ->
  redux_re script = Some candidate ->
  json_loads candidate = Raise e ->
  e <> JSONDecodeError ->
  parse_response redux_re json_loads (Some script :: rest) unique_candidates = Raise e /\
  (forall (get : nat -> response) (text : string), get 1%nat = Resp 200 text ->
     search (fun _ => parse_response redux_re json_loads (Some script :: rest) unique_candidates) get
     = (Raise e, [], 1%nat)).
Proof.
  intros Hs Hre Hl He.
  assert (P : parse_response redux_re json_loads (Some script :: rest) unique_candidates = Raise e).
  { unfold parse_response. cbn [scan_scripts].
    unfold opt_truthy. destruct (String.eqb_spec script "") as [|_]; [done|]. cbn [negb].
    rewrite Hre, Hl. destruct e; [reflexivity|reflexivity|done|reflexivity|reflexivity]. }
  split; [exact P|]. intros get text Hg.
  unfold search, MAX_RETRIES. cbn [search_loop]. rewrite Hg. cbn. by rewrite P.
Qed.

(* ------------------------------------------------------------------ *)
(** ** Instances of the theorems on concrete inputs *)

Lemma dedup_last_occurrence_wins_witness :
  ("1" <> "" /\
   last (List.filter (has_id "1") [qa_job "1"; qa_job "2"; senior_job]) = Some senior_job) /\
  List.filter (has_id "1") (dedup [qa_job "1"; qa_job "2"; senior_job]) = [senior_job].
Proof.
  split; [split; [discriminate|reflexivity]|].
  apply (dedup_last_occurrence_wins [qa_job "1"; qa_job "2"; senior_job] "1" senior_job);
    [discriminate|reflexivity].
Defined.

Lemma reconcile_idempotent_witness :
  reconcile "Auckland" EXCLUDE_AUTOMATION_KEYWORDS [qa_job "1"; qa_job "2"] ∅
    = Ok (mkLoop {["1"; "2"]} [qa_job "1"; qa_job "2"] 2 0 0) /\
  exists st2,
    reconcile "Auckland" EXCLUDE_AUTOMATION_KEYWORDS [qa_job "1"; qa_job "2"] {["1"; "2"]} = Ok st2 /\
    sent st2 = [] /\ new_count st2 = 0 /\ seen_jobs st2 = {["1"; "2"]}.
Proof.
  assert (H : reconcile "Auckland" EXCLUDE_AUTOMATION_KEYWORDS [qa_job "1"; qa_job "2"] ∅
                = Ok (mkLoop {["1"; "2"]} [qa_job "1"; qa_job "2"] 2 0 0))
    by (vm_compute; reflexivity).
  split; [exact H|].
  exact (reconcile_idempotent "Auckland" EXCLUDE_AUTOMATION_KEYWORDS [qa_job "1"; qa_job "2"] ∅ _ H).
Defined.

Lemma search_retry_policy_witness :
  (three_429 1 = Resp 429 "" /\ three_429 2 = Resp 429 "" /\ three_429 3 = Resp 429 "" /\
   three_429 4 = Resp 200 "page") /\
  search (fun _ => Ok [qa_job "1"]) three_429 = (Ok [qa_job "1"], [5; 10; 20]%Z, 4).
Proof.
  split; [repeat split|].
  exact (proj2 (proj2 (search_retry_policy (fun _ => Ok [qa_job "1"]) three_429)) "page"
           eq_refl eq_refl eq_refl eq_refl).
Defined.

Lemma main_run_saves_once_witness :
  main_run (fun _ => ["1"]) "Auckland" EXCLUDE_AUTOMATION_KEYWORDS [qa_job "1"] FAbsent
    = Ok (mkRun [qa_job "1"] {["1"]} [["1"]] (saved_file ["1"])) /\
  length [["1"]] <= 1 /\
  ([["1"]] <> [] <-> exists x, x ∈ ({["1"]} : gset string) /\ x ∉ load_state FAbsent) /\
  ([["1"]] = [] <-> [qa_job "1"] = []) /\
  ([["1"]] = [] -> saved_file ["1"] = FAbsent) /\
  (forall limited_ids, [["1"]] = [limited_ids] ->
     limited_ids = save_state (fun _ => ["1"]) {["1"]} /\ saved_file ["1"] = saved_file limited_ids).
Proof.
  assert (H : main_run (fun _ => ["1"]) "Auckland" EXCLUDE_AUTOMATION_KEYWORDS [qa_job "1"] FAbsent
                = Ok (mkRun [qa_job "1"] {["1"]} [["1"]] (saved_file ["1"])))
    by (vm_compute; reflexivity).
  split; [exact H|].
  exact (main_run_saves_once (fun _ => ["1"]) "Auckland" EXCLUDE_AUTOMATION_KEYWORDS [qa_job "1"]
           FAbsent _ H).
Defined.

Lemma looks_automated_blank_fields_witness :
  (Forall (fun kw => kw <> "") EXCLUDE_AUTOMATION_KEYWORDS /\
   absent_or_empty (j_title blank_job) /\ absent_or_empty (j_advertiser blank_job)) /\
  looks_automated EXCLUDE_AUTOMATION_KEYWORDS blank_job = Ok false.
Proof.
  assert (HF : Forall (fun kw => kw <> "") EXCLUDE_AUTOMATION_KEYWORDS).
  { apply List.Forall_forall. intros kw Hin. vm_compute in Hin.
    repeat (destruct Hin as [<-|Hin]; [discriminate|]). destruct Hin. }
  assert (HT : absent_or_empty (j_title blank_job)) by (left; reflexivity).
  assert (HA : absent_or_empty (j_advertiser blank_job)) by (right; reflexivity).
  split; [split; [exact HF|split; [exact HT|exact HA]]|].
  exact (looks_automated_blank_fields EXCLUDE_AUTOMATION_KEYWORDS blank_job HF HT HA).
Defined.

Lemma redux_extract_mapping_witness :
  first_list zero_id_blob redux_paths = zero_id_items /\
  forallb item_has_id zero_id_items = true /\
  exists jobs, redux_extract zero_id_blob = (match jobs with [] => None | _ => Some jobs end) /\
    Forall2 (fun it j => exists kvs, it = JObj kvs /\ amended_item_ok kvs j)
            (List.filter is_dict zero_id_items) jobs.
Proof.
  assert (H : first_list zero_id_blob redux_paths = zero_id_items) by (vm_compute; reflexivity).
  assert (Hid : forallb item_has_id zero_id_items = true) by (vm_compute; reflexivity).
  split; [exact H|]. split; [exact Hid|].
  exact (redux_extract_mapping zero_id_blob zero_id_items H Hid).
Defined.

Lemma no_id_item_notified_as_None_witness :
  ("<script>" <> "" /\ (fun _ : string => Some "{}") "<script>" = Some "{}" /\
   (fun _ : string => Ok no_id_blob) "{}" = Ok no_id_blob) /\
  exists found,
    parse_response (fun _ => Some "{}") (fun _ => Ok no_id_blob) [Some "<script>"] [] = Ok found /\
    map j_id found = ["None"] /\
    forall set_iter, exists out,
      main_run set_iter "Auckland" EXCLUDE_AUTOMATION_KEYWORDS found FAbsent = Ok out /\
      run_sent out = found /\ run_seen out = {["None"]} /\
      run_saves out = [save_state set_iter {["None"]}].
Proof.
  split; [split; [discriminate|split; reflexivity]|].
  apply (no_id_item_notified_as_None (fun _ => Some "{}") (fun _ => Ok no_id_blob)
           "<script>" "{}" []); [discriminate|reflexivity|reflexivity].
Defined.

Lemma loads_error_escapes_parse_response_witness :
  ("<script>" <> "" /\ (fun _ : string => Some "{}") "<script>" = Some "{}" /\
   (fun _ : string => @Raise json RecursionError) "{}" = Raise RecursionError /\
   RecursionError <> JSONDecodeError) /\
  parse_response (fun _ => Some "{}") (fun _ => Raise RecursionError) [Some "<script>"] []
    = Raise RecursionError /\
  (forall (get : nat -> response) (text : string), get 1%nat = Resp 200 text ->
     search (fun _ => parse_response (fun _ => Some "{}") (fun _ => Raise RecursionError)
                                     [Some "<script>"] []) get
     = (Raise RecursionError, [], 1%nat)).
Proof.
  split; [split; [discriminate|split; [reflexivity|split; [reflexivity|discriminate]]]|].
  apply (loads_error_escapes_parse_response (fun _ => Some "{}") (fun _ => Raise RecursionError)
           "<script>" "{}" RecursionError [] []); [discriminate|reflexivity|reflexivity|discriminate].
Defined.

(* ================================================================== *)
(** * Further properties of the code *)

(* ------------------------------------------------------------------ *)
(** ** Dedup and reconciliation invariants *)

Lemma dict_set_elem (d : list (string * job)) (k : string) (v : job) (kv : string * job) :
  kv ∈ dict_set d k v -> kv ∈ d \/ kv = (k, v).
Proof.
  induction d as [|[k' v'] d IH]; simpl; intros H.
  - apply list_elem_of_singleton in H. by right.
  - destruct (String.eqb_spec k k') as [->|Hne].
    + apply elem_of_cons in H as [->|H]; [by right|left; apply elem_of_cons; by right].
    + apply elem_of_cons in H as [->|H]; [left; apply elem_of_cons; by left|].
      destruct (IH H) as [H'|H']; [left; apply elem_of_cons; by right|by right].
Qed.

Lemma dedup_fold_inv (l : list job) (d : list (string * job)) :
  dict_ok d -> Forall (fun kv => kv.1 <> "") d ->
  let d' := fold_left (fun d j => if String.eqb (j_id j) "" then d else dict_set d (j_id j) j) l d in
  dict_ok d' /\ Forall (fun kv => kv.1 <> "") d' /\ (forall kv, kv ∈ d' -> kv ∈ d \/ kv.2 ∈ l).
Proof.
  revert d. induction l as [|j l IH]; intros d Hok Hne; simpl.
  - split; [done|split; [done|]]. intros kv H. by left.
  - destruct (String.eqb_spec (j_id j) "") as [Hj|Hj].
    + destruct (IH d Hok Hne) as (H1 & H2 & H3). split; [done|split; [done|]].
      intros kv Hkv. destruct (H3 kv Hkv) as [H|H]; [by left|right; apply elem_of_cons; by right].
    + assert (Hok' : dict_ok (dict_set d (j_id j) j)) by (by apply dict_set_ok).
      assert (Hne' : Forall (fun kv => kv.1 <> "") (dict_set d (j_id j) j)).
      { apply Forall_forall. intros kv Hkv. destruct (dict_set_elem _ _ _ _ Hkv) as [H| ->].
        - by eapply Forall_forall in Hne.
        - done. }
      destruct (IH _ Hok' Hne') as (H1 & H2 & H3). split; [done|split; [done|]].
      intros kv Hkv. destruct (H3 kv Hkv) as [H|H].
      * destruct (dict_set_elem _ _ _ _ H) as [H'| ->]; [by left|right; apply elem_of_cons; by left].
      * right. apply elem_of_cons. by right.
Qed.

Section ReconcileInvariant.
Variable search_location : string.
Variable exclude_kws : list string.

(** What one pass of the loop adds: the records it sends, with distinct
    ids that were not seen before and that pass both filters. *)
Lemma reconcile_loop_sent_inv (l : list job) (st st' : loop_state) :
  reconcile_loop search_location exclude_kws l st = Ok st' ->
  exists added,
    sent st' = sent st ++ added /\
    seen_jobs st' = list_to_set (map j_id added) ∪ seen_jobs st /\
    new_count st' = new_count st + length added /\
    NoDup (map j_id added) /\
    Forall (fun j => (j_id j ∉ seen_jobs st) /\ j_id j <> "" /\ j ∈ l /\
                     matches_location j search_location = Ok true /\
                     looks_automated exclude_kws j = Ok false) added.
Proof.
  revert st. induction l as [|j l IH]; intros st H; simpl in H.
  - injection H as <-. exists []. rewrite app_nil_r, Nat.add_0_r. cbn.
    split; [done|split; [by rewrite (left_id_L ∅ union)|split; [done|split; constructor]]].
  - assert (Hweak : forall st0, reconcile_loop search_location exclude_kws l st0 = Ok st' ->
              seen_jobs st0 = seen_jobs st -> sent st0 = sent st -> new_count st0 = new_count st ->
              exists added, sent st' = sent st ++ added /\
                seen_jobs st' = list_to_set (map j_id added) ∪ seen_jobs st /\
                new_count st' = new_count st + length added /\ NoDup (map j_id added) /\
                Forall (fun j0 => (j_id j0 ∉ seen_jobs st) /\ j_id j0 <> "" /\ j0 ∈ j :: l /\
                     matches_location j0 search_location = Ok true /\
                     looks_automated exclude_kws j0 = Ok false) added).
    { intros st0 H0 Hs Hse Hn. destruct (IH _ H0) as (a & Ha1 & Ha2 & Ha3 & Ha4 & Ha5).
      exists a. rewrite <- Hs, <- Hse, <- Hn. split; [done|split; [done|split; [done|split; [done|]]]].
      eapply Forall_impl; [exact Ha5|]. intros j0 (? & ? & ? & ? & ?).
      repeat split; try done. apply elem_of_cons. by right. }
    destruct (String.eqb_spec (j_id j) "") as [Hj|Hj]; [exact (Hweak _ H eq_refl eq_refl eq_refl)|].
    case_bool_decide as Hin; [exact (Hweak _ H eq_refl eq_refl eq_refl)|].
    destruct (matches_location j search_location) as [[]|] eqn:Hml; simpl in H;
      [|exact (Hweak _ H eq_refl eq_refl eq_refl)|done].
    destruct (looks_automated exclude_kws j) as [[]|] eqn:Hla; simpl in H;
      [exact (Hweak _ H eq_refl eq_refl eq_refl)| |done].
    destruct (IH _ H) as (a & Ha1 & Ha2 & Ha3 & Ha4 & Ha5); simpl in *.
    exists (j :: a). split; [by rewrite Ha1, <- app_assoc|].
    split; [rewrite Ha2; simpl; set_solver|].
    split; [simpl; lia|].
    split.
    + simpl. apply NoDup_cons. split; [|done].
      intros Hx. apply list_elem_of_In, in_map_iff in Hx as (j0 & Hj0 & Hj0in).
      apply list_elem_of_In in Hj0in. eapply Forall_forall in Ha5 as (Hs & _); [|exact Hj0in].
      apply Hs. rewrite Hj0. set_solver.
    + apply Forall_cons. split.
      * repeat split; try done. apply elem_of_cons. by left.
      * eapply Forall_impl; [exact Ha5|]. intros j0 (Hs & ? & ? & ? & ?).
        repeat split; try done; [set_solver|apply elem_of_cons; by right].
Qed.
End ReconcileInvariant.

(** The deduplicated list has distinct non-empty ids, each taken from a
    record of the input, and keeps every non-empty id of the input. *)
Theorem dedup_distinct_ids (l : list job) :
  NoDup (map j_id (dedup l)) /\
  Forall (fun j => j_id j <> "" /\ j ∈ l) (dedup l) /\
  (forall j, j ∈ l -> j_id j <> "" -> j_id j ∈ map j_id (dedup l)).
Proof.
  destruct (dedup_fold_inv l [] (conj (Forall_nil_2 _) NoDup_nil_2) (Forall_nil_2 _))
    as ([HF HN] & Hne & Hsub).
  unfold dedup.
  set (d' := fold_left _ l []) in *.
  assert (Hk : map j_id (map snd d') = map fst d').
  { clear -HF. induction HF as [|[k v] d Hkv HF IH]; simpl in *; [done|]. by rewrite Hkv, IH. }
  split; [by rewrite Hk|]. split.
  - apply Forall_forall. intros j Hj. apply list_elem_of_In, in_map_iff in Hj as ([k v] & <- & Hin).
    apply list_elem_of_In in Hin. simpl. split.
    + eapply Forall_forall in HF; [|exact Hin]. eapply Forall_forall in Hne; [|exact Hin].
      simpl in *. by rewrite HF.
    + destruct (Hsub _ Hin) as [H|H]; [apply list_elem_of_In in H; destruct H|exact H].
  - intros j Hj Hne'.
    pose proof (dedup_fold_filter l [] (j_id j) (conj (Forall_nil_2 _) NoDup_nil_2) Hne') as Hf.
    fold d' in Hf.
    destruct (last (List.filter (has_id (j_id j)) l)) as [j'|] eqn:Hl.
    + assert (Hj' : j' ∈ List.filter (has_id (j_id j)) (map snd d')) by (rewrite Hf; apply elem_of_cons; by left).
      apply list_elem_of_In, filter_In in Hj' as [Hj' Hid]. unfold has_id in Hid.
      apply String.eqb_eq in Hid. rewrite <- Hid.
      apply list_elem_of_In, in_map. exact Hj'.
    + exfalso. apply last_None in Hl.
      assert (In j (List.filter (has_id (j_id j)) l)).
      { apply filter_In. split; [by apply list_elem_of_In|]. unfold has_id. apply String.eqb_refl. }
      rewrite Hl in H. done.
Qed.

(** After a run, the seen set is the loaded set plus the ids of the records
    sent during the run; these ids are distinct, were not in the loaded
    set, are non-empty, and each sent record comes from the search results
    and passes both filters. *)
Theorem main_run_sent_invariant (set_iter : gset string -> list string)
    (search_location : string) (exclude_kws : list string)
    (all_found_jobs : list job) (file0 : state_file) (out : run_out) :
  main_run set_iter search_location exclude_kws all_found_jobs file0 = Ok out ->
  run_seen out = list_to_set (map j_id (run_sent out)) ∪ load_state file0 /\
  NoDup (map j_id (run_sent out)) /\
  Forall (fun j => (j_id j ∉ load_state file0) /\ j_id j <> "" /\ j ∈ all_found_jobs /\
                   matches_location j search_location = Ok true /\
                   looks_automated exclude_kws j = Ok false) (run_sent out).
Proof.
  unfold main_run. intros H.
  destruct (reconcile search_location exclude_kws all_found_jobs (load_state file0)) as [st|] eqn:Hr;
    [|discriminate]. cbn [res_bind] in H.
  unfold reconcile in Hr.
  destruct (reconcile_loop_sent_inv _ _ _ _ _ Hr) as (a & Ha1 & Ha2 & _ & Ha4 & Ha5).
  cbn in Ha1, Ha2, Ha5.
  assert (Hs : run_sent out = a /\ run_seen out = seen_jobs st).
  { destruct (Nat.eqb (new_count st) 0); injection H as <-; simpl; by rewrite Ha1. }
  destruct Hs as [-> ->]. split; [exact Ha2|]. split; [exact Ha4|].
  destruct (dedup_distinct_ids all_found_jobs) as (_ & Hd & _).
  eapply Forall_impl; [exact Ha5|]. intros j (H1 & H2 & H3 & H4 & H5).
  repeat split; try done. eapply Forall_forall in Hd as [_ Hd]; [exact Hd|exact H3].
Qed.

(* ------------------------------------------------------------------ *)
(** ** Saving and loading the seen set *)

(** Loading the file [save_state] writes gives back a subset of the saved
    set with [min (size, 2000)] ids: the whole set when it holds at most
    2000 ids.  [set_iter] enumerates the set without repetition, as
    [list(seen_ids)] does. *)
Theorem save_then_load (set_iter : gset string -> list string) (seen_ids : gset string) :
  NoDup (set_iter seen_ids) -> (forall x, x ∈ set_iter seen_ids <-> x ∈ seen_ids) ->
  load_state (saved_file (save_state set_iter seen_ids)) ⊆ seen_ids /\
  size (load_state (saved_file (save_state set_iter seen_ids))) = Nat.min (size seen_ids) 2000 /\
  (size seen_ids <= 2000 -> load_state (saved_file (save_state set_iter seen_ids)) = seen_ids).
Proof.
  intros HN Hin.
  assert (Hlen : length (set_iter seen_ids) = size seen_ids).
  { change (size seen_ids) with (length (elements seen_ids)).
    apply Permutation_length, NoDup_Permutation; [done|apply NoDup_elements|].
    intros x. rewrite Hin. symmetry. apply elem_of_elements. }
  assert (Hload : load_state (saved_file (save_state set_iter seen_ids)) =
                  list_to_set (save_state set_iter seen_ids)).
  { unfold saved_file. cbn [load_state]. rewrite map_map. f_equal. apply map_id. }
  assert (HNd : NoDup (save_state set_iter seen_ids)).
  { eapply sublist_NoDup; [exact HN|apply sublist_drop]. }
  assert (Hsub : list_to_set (save_state set_iter seen_ids) ⊆ seen_ids).
  { intros x Hx. apply elem_of_list_to_set in Hx. apply Hin.
    by apply (subseteq_drop (length (set_iter seen_ids) - 2000)). }
  assert (Hsize : size (list_to_set (C:=gset string) (save_state set_iter seen_ids))
                  = Nat.min (size seen_ids) 2000).
  { rewrite size_list_to_set by exact HNd. unfold save_state, py_last.
    rewrite length_drop, Hlen. lia. }
  rewrite Hload. split; [exact Hsub|]. split; [exact Hsize|].
  intros Hle. apply set_subseteq_size_eq; [exact Hsub|]. rewrite Hsize. lia.
Qed.

(* ------------------------------------------------------------------ *)
(** ** The search URL *)

Lemma unquote_quote_char (c : ascii) (t : string) :
  unquote_plus (quote_char c +:+ t) = String c (unquote_plus t).
Proof. destruct c as [[] [] [] [] [] [] [] []]; reflexivity. Qed.

Lemma quote_char_url (c : ascii) :
  Forall (fun c' => url_char c' = true) (list_ascii_of_string (quote_char c)).
Proof.
  assert (Hb : forallb url_char (list_ascii_of_string (quote_char c)) = true)
    by (destruct c as [[] [] [] [] [] [] [] []]; reflexivity).
  apply List.Forall_forall. intros x Hx. exact (proj1 (forallb_forall _ _) Hb x Hx).
Qed.

Lemma list_ascii_of_string_app (a b : string) :
  list_ascii_of_string (a +:+ b) = list_ascii_of_string a ++ list_ascii_of_string b.
Proof. induction a as [|c a IH]; simpl; [done|]. by rewrite IH. Qed.

Lemma string_app_inv_head (a x y : string) : a +:+ x = a +:+ y -> x = y.
Proof. induction a as [|c a IH]; simpl; [done|]. intros H. injection H. exact IH. Qed.

Lemma split_at_amp (a1 a2 b1 b2 : string) :
  Forall (fun c => c <> "&"%char) (list_ascii_of_string a1) ->
  Forall (fun c => c <> "&"%char) (list_ascii_of_string a2) ->
  a1 +:+ String "&" b1 = a2 +:+ String "&" b2 -> a1 = a2 /\ b1 = b2.
Proof.
  revert a2. induction a1 as [|c1 a1 IH]; intros a2 H1 H2 E; destruct a2 as [|c2 a2];
    simpl in *.
  - injection E as E. split; [done|exact E].
  - injection E as Hc _. inversion H2 as [|? ? Hne]. congruence.
  - injection E as Hc _. inversion H1 as [|? ? Hne]. congruence.
  - injection E as Hc E. subst c2. inversion H1 as [|? ? _ H1']. inversion H2 as [|? ? _ H2'].
    destruct (IH a2 H1' H2' E) as [-> ->]. done.
Qed.

Lemma quote_plus_props (s : string) :
  unquote_plus (quote_plus s) = s /\
  Forall (fun c => url_char c = true) (list_ascii_of_string (quote_plus s)).
Proof.
  induction s as [|c s [IH1 IH2]]; simpl; [split; [done|constructor]|].
  split.
  - by rewrite unquote_quote_char, IH1.
  - rewrite list_ascii_of_string_app. apply Forall_app. split; [apply quote_char_url|exact IH2].
Qed.

Lemma quote_plus_no_amp (s : string) :
  Forall (fun c => c <> "&"%char) (list_ascii_of_string (quote_plus s)).
Proof.
  eapply Forall_impl; [apply (proj2 (quote_plus_props s))|].
  intros c Hc ->. discriminate Hc.
Qed.

(** [quote_plus] writes only always-safe bytes, [+] and [%] (never the
    [&], [=], [?] or [#] that delimit the query), and the server's
    [unquote_plus] gives back the original string. *)
Theorem quote_plus_round_trip (s : string) :
  unquote_plus (quote_plus s) = s /\
  Forall (fun c => url_char c = true) (list_ascii_of_string (quote_plus s)).
Proof. exact (quote_plus_props s). Qed.

(** The request URL determines the keyword and the location it was built
    from: two searches that request the same URL were given the same
    keyword and the same location. *)
Theorem search_url_injective (k1 l1 k2 l2 : string) :
  search_url k1 l1 = search_url k2 l2 -> k1 = k2 /\ l1 = l2.
Proof.
  unfold search_url. intros E.
  apply string_app_inv_head, string_app_inv_head, string_app_inv_head in E.
  destruct (split_at_amp _ _ _ _ (quote_plus_no_amp k1) (quote_plus_no_amp k2) E) as [Ek El].
  injection El as El.
  split.
  - rewrite <- (proj1 (quote_plus_props k1)), <- (proj1 (quote_plus_props k2)). by rewrite Ek.
  - rewrite <- (proj1 (quote_plus_props l1)), <- (proj1 (quote_plus_props l2)). by rewrite El.
Qed.

(* ------------------------------------------------------------------ *)
(** ** Exceptions of [_parse_response] and of the reconciliation *)

Lemma scan_scripts_raise (redux_re : string -> option string) (json_loads : string -> res json)
    (scripts : list (option string)) (e : exc) :
  scan_scripts redux_re json_loads scripts = Raise e ->
  e <> JSONDecodeError /\
  exists s c, Some s ∈ scripts /\ redux_re s = Some c /\ json_loads c = Raise e.
Proof.
  induction scripts as [|script rest IH]; cbn [scan_scripts]; [discriminate|].
  assert (Hrest : scan_scripts redux_re json_loads rest = Raise e ->
                  e <> JSONDecodeError /\
                  exists s c, Some s ∈ script :: rest /\ redux_re s = Some c /\ json_loads c = Raise e).
  { intros H. destruct (IH H) as (He & s & c & Hs & Hc & Hl). split; [done|].
    exists s, c. split; [apply elem_of_cons; by right|done]. }
  destruct script as [s|]; cbn [opt_truthy negb]; [|exact Hrest].
  destruct (String.eqb s "") eqn:Hs; cbn [negb]; [exact Hrest|].
  destruct (redux_re s) as [c|] eqn:Hre; [|exact Hrest].
  destruct (json_loads c) as [v|[]] eqn:Hl; try discriminate;
    try (intros [= <-]; split; [discriminate|exists s, c; split; [apply elem_of_cons; by left|done]]).
  destruct (json_loads (py_slice _ _ _)); [discriminate|exact Hrest].
Qed.

(** The only exception that leaves [_parse_response] is one that
    [json.loads] raised on a captured candidate and that is not a
    [JSONDecodeError]: the Redux mapping, the looser extraction and the
    DOM strategy never raise. *)
Theorem parse_response_raises_only_loads_error
    (redux_re : string -> option string) (json_loads : string -> res json)
    (scripts : list (option string)) (unique_candidates : list dom_node) (e : exc) :
  parse_response redux_re json_loads scripts unique_candidates = Raise e ->
  e <> JSONDecodeError /\
  exists s c, Some s ∈ scripts /\ redux_re s = Some c /\ json_loads c = Raise e.
Proof.
  unfold parse_response.
  destruct (scan_scripts redux_re json_loads scripts) as [o|e'] eqn:Hs; cbn [res_bind].
  - destruct (match o with Some v => _ | None => None end); discriminate.
  - intros [= <-]. exact (scan_scripts_raise _ _ _ _ Hs).
Qed.

Lemma length_app_str (a b : string) : String.length (a +:+ b) = String.length a + String.length b.
Proof. induction a as [|c a IH]; simpl; [done|]. by rewrite IH. Qed.

Lemma rfind_go_last (c : ascii) (a : string) (i last : Z) :
  rfind_go c (a +:+ String c EmptyString) i last = (i + Z.of_nat (String.length a))%Z.
Proof.
  revert i last. induction a as [|c' a IH]; intros i last; simpl.
  - rewrite Ascii.eqb_refl. lia.
  - rewrite IH. lia.
Qed.

Lemma substring_full (s : string) : substring 0 (String.length s) s = s.
Proof. induction s as [|c s IH]; simpl; [done|]. by rewrite IH. Qed.

(** The looser extraction re-slices a candidate that already starts with
    [{] and ends with [}] to itself. *)
Lemma py_index_in (n len : Z) : (0 <= n <= len)%Z -> py_index n len = Z.to_nat n.
Proof. intros H. unfold py_index. destruct (Z.ltb_spec n 0); [lia|]. f_equal. lia. Qed.

Lemma loose_slice_noop (mid : string) :
  let c := String "{" (mid +:+ "}") in
  py_slice c (py_find c "{") (py_rfind c "}" + 1) = c.
Proof.
  cbv zeta.
  assert (Hlen : String.length (String "{" (mid +:+ "}")) = S (String.length mid + 1))
    by (cbn [String.length]; by rewrite length_app_str).
  assert (Hf : py_find (String "{" (mid +:+ "}")) "{" = 0%Z) by reflexivity.
  assert (Hr : py_rfind (String "{" (mid +:+ "}")) "}" = (1 + Z.of_nat (String.length mid))%Z).
  { unfold py_rfind. cbn [rfind_go]. change (Ascii.eqb "}" "{") with false. cbv iota.
    apply rfind_go_last. }
  unfold py_slice. rewrite Hf, Hr, Hlen.
  rewrite (py_index_in 0) by lia. rewrite py_index_in by lia.
  replace (Z.to_nat (1 + Z.of_nat (String.length mid) + 1) - Z.to_nat 0)
    with (String.length (String "{" (mid +:+ "}"))) by (rewrite Hlen; lia).
  apply substring_full.
Qed.

(** The looser [{ ... }] extraction never recovers a candidate: the
    captured group of the pattern starts with [{] and ends with [}], so
    slicing from the first [{] to the last [}] gives the same text and
    [json.loads] fails on it again.  Whenever the scan yields a value,
    it is [json.loads] of a captured candidate as it stands. *)
Theorem loose_extraction_never_recovers
    (redux_re : string -> option string) (json_loads : string -> res json)
    (scripts : list (option string)) (v : json) :
  (forall s c, redux_re s = Some c -> exists mid, c = String "{" (mid +:+ "}")) ->
  scan_scripts redux_re json_loads scripts = Ok (Some v) ->
  exists s c, Some s ∈ scripts /\ redux_re s = Some c /\ json_loads c = Ok v.
Proof.
  intros Hshape. induction scripts as [|script rest IH]; cbn [scan_scripts]; [discriminate|].
  assert (Hrest : scan_scripts redux_re json_loads rest = Ok (Some v) ->
                  exists s c, Some s ∈ script :: rest /\ redux_re s = Some c /\ json_loads c = Ok v).
  { intros H. destruct (IH H) as (s & c & Hs & Hc & Hl).
    exists s, c. split; [apply elem_of_cons; by right|done]. }
  destruct script as [s|]; cbn [opt_truthy negb]; [|exact Hrest].
  destruct (String.eqb s "") eqn:Hs; cbn [negb]; [exact Hrest|].
  destruct (redux_re s) as [c|] eqn:Hre; [|exact Hrest].
  destruct (json_loads c) as [v'|[]] eqn:Hl; try discriminate.
  - intros [= <-]. exists s, c. split; [apply elem_of_cons; by left|done].
  - destruct (Hshape s c Hre) as [mid ->].
    rewrite (loose_slice_noop mid), Hl. exact Hrest.
Qed.

Lemma is_prefix_app (p x : string) : is_prefix p (p +:+ x) = true.
Proof. induction p as [|c p IH]; simpl; [done|]. by rewrite Ascii.eqb_refl, IH. Qed.

Lemma dom_item_wf (node : dom_node) (j : job) :
  dom_item node = Some j ->
  j_id j <> "" /\ is_prefix BASE_URL (j_url j) = true /\
  (exists t, j_title j = JStr t) /\ (exists a, j_advertiser j = JStr a) /\
  (exists l, j_location j = JStr l).
Proof.
  intros H. split; [exact (dom_item_id_nonempty node j H)|].
  revert H. unfold dom_item. cbv zeta.
  destruct (if opt_truthy _ then _ else _) as [jid|]; [|discriminate].
  destruct (String.eqb jid ""); [discriminate|].
  intros [= <-]. cbn [j_url j_title j_advertiser j_location].
  split; [|split; [eexists; reflexivity|split; eexists; reflexivity]].
  destruct (if String.eqb (node_name node) "a" && opt_truthy (node_href node) then _ else _)
    as [[[h|] t]|]; cbn [link_href]; [destruct (negb _ && _)| |]; apply is_prefix_app.
Qed.

Lemma dedup_members (l : list job) (j : job) : j ∈ dedup l -> j ∈ l.
Proof.
  destruct (dedup_fold_inv l [] (conj (Forall_nil_2 _) NoDup_nil_2) (Forall_nil_2 _))
    as (_ & _ & Hsub).
  unfold dedup. intros Hj. apply list_elem_of_In, in_map_iff in Hj as (kv & <- & Hin).
  apply list_elem_of_In in Hin.
  destruct (Hsub _ Hin) as [H|H]; [apply list_elem_of_In in H; destruct H|exact H].
Qed.

Lemma matches_location_str (job0 : job) (d loc : string) :
  j_location job0 = JStr loc -> exists b, matches_location job0 d = Ok b.
Proof.
  intros Hl. unfold matches_location. destruct (String.eqb d ""); [eexists; reflexivity|].
  rewrite Hl. unfold py_or. cbn [truthy].
  destruct (negb (String.eqb loc "")); cbn [strip_val res_bind];
    (destruct (_ || _); eexists; reflexivity).
Qed.

Lemma looks_automated_str (kws : list string) (job0 : job) (t a : string) :
  j_title job0 = JStr t -> j_advertiser job0 = JStr a ->
  exists b, looks_automated kws job0 = Ok b.
Proof.
  intros Ht Ha. unfold looks_automated. rewrite Ht, Ha. unfold py_or. cbn [truthy].
  destruct (negb (String.eqb t "")), (negb (String.eqb a "")); cbn [lower_val res_bind];
    eexists; reflexivity.
Qed.

Lemma reconcile_loop_str_ok (search_location : string) (exclude_kws : list string)
    (l : list job) (st : loop_state) :
  Forall (fun j => (exists t, j_title j = JStr t) /\ (exists a, j_advertiser j = JStr a) /\
                   (exists lo, j_location j = JStr lo)) l ->
  exists st', reconcile_loop search_location exclude_kws l st = Ok st'.
Proof.
  revert st. induction l as [|j l IH]; intros st Hl; cbn [reconcile_loop]; [eexists; reflexivity|].
  apply Forall_cons in Hl as [((t & Ht) & (a & Ha) & (lo & Hlo)) Hl].
  destruct (String.eqb (j_id j) ""); [exact (IH _ Hl)|].
  case_bool_decide; [exact (IH _ Hl)|].
  destruct (matches_location_str j search_location lo Hlo) as [b Hb]. rewrite Hb. cbn [res_bind].
  destruct (negb b); [exact (IH _ Hl)|].
  destruct (looks_automated_str exclude_kws j t a Ht Ha) as [b' Hb']. rewrite Hb'. cbn [res_bind].
  destruct b'; exact (IH _ Hl).
Qed.

(** Every record of the DOM strategy has a non-empty id, a url on
    [BASE_URL] and string title, advertiser and location, so the
    reconciliation in [main] runs without exception on DOM records,
    whatever the location filter, the keywords and the seen set. *)
Theorem dom_records_reconcile (unique_candidates : list dom_node)
    (search_location : string) (exclude_kws : list string) (seen0 : gset string) :
  Forall (fun j => j_id j <> "" /\ is_prefix BASE_URL (j_url j) = true /\
                   (exists t, j_title j = JStr t) /\ (exists a, j_advertiser j = JStr a) /\
                   (exists l, j_location j = JStr l)) (dom_extract unique_candidates) /\
  exists st, reconcile search_location exclude_kws (dom_extract unique_candidates) seen0 = Ok st.
Proof.
  assert (Hwf : Forall (fun j => j_id j <> "" /\ is_prefix BASE_URL (j_url j) = true /\
                   (exists t, j_title j = JStr t) /\ (exists a, j_advertiser j = JStr a) /\
                   (exists l, j_location j = JStr l)) (dom_extract unique_candidates)).
  { apply Forall_forall. intros j Hj. unfold dom_extract in Hj.
    apply list_elem_of_omap in Hj as (node & _ & Hn). exact (dom_item_wf node j Hn). }
  split; [exact Hwf|].
  apply reconcile_loop_str_ok. apply Forall_forall. intros j Hj.
  apply dedup_members in Hj. eapply Forall_forall in Hwf as (_ & _ & H); [exact H|exact Hj].
Qed.

(* ------------------------------------------------------------------ *)
(** ** Joining configuration strings *)

Lemma split_go_comma (cur a b : string) :
  split_go cur (a +:+ String "," b) = split_go cur a ++ split_go EmptyString b.
Proof.
  revert cur. induction a as [|c a IH]; intros cur; simpl.
  - reflexivity.
  - destruct (Ascii.eqb c ","); [|apply IH]. simpl. f_equal. apply IH.
Qed.

Lemma split_comma_app (a b : string) :
  py_split_comma (a +:+ String "," b) = py_split_comma a ++ py_split_comma b.
Proof. apply split_go_comma. Qed.

(** Joining two configuration strings with a comma joins their
    filters: the exclusion keywords of the joined string are those of
    both parts, a record looks automated for them exactly when it does for
    one part, and a record matches a joined location filter (both parts
    non-empty) exactly when it matches one part. *)
Theorem comma_join_filters (job0 : job) (a b : string) :
  a <> "" -> b <> "" ->
  exclude_keywords_of (a +:+ String "," b) = exclude_keywords_of a ++ exclude_keywords_of b /\
  looks_automated (exclude_keywords_of (a +:+ String "," b)) job0 =
    (let! x := looks_automated (exclude_keywords_of a) job0 in
     let! y := looks_automated (exclude_keywords_of b) job0 in Ok (x || y)) /\
  matches_location job0 (a +:+ String "," b) =
    (let! x := matches_location job0 a in
     let! y := matches_location job0 b in Ok (x || y)).
Proof.
  intros Ha Hb.
  assert (Hk : exclude_keywords_of (a +:+ String "," b) =
               exclude_keywords_of a ++ exclude_keywords_of b).
  { unfold exclude_keywords_of. by rewrite split_comma_app, List.filter_app, map_app. }
  split; [exact Hk|]. split.
  - rewrite Hk. unfold looks_automated.
    destruct (lower_val (py_or (j_title job0) (JStr ""))) as [t|e]; cbn [res_bind]; [|done].
    destruct (lower_val (py_or (j_advertiser job0) (JStr ""))) as [ad|e]; cbn [res_bind]; [|done].
    by rewrite existsb_app.
  - assert (Ht : location_tokens (a +:+ String "," b) = location_tokens a ++ location_tokens b).
    { unfold location_tokens. by rewrite split_comma_app, List.filter_app, map_app. }
    unfold matches_location.
    destruct (String.eqb_spec a "") as [|_]; [done|].
    destruct (String.eqb_spec b "") as [|_]; [done|].
    destruct (String.eqb_spec (a +:+ String "," b) "") as [E|_]; [by destruct a|].
    destruct (strip_val (py_or (j_location job0) (JStr ""))) as [loc|e]; cbn [res_bind]; [|done].
    destruct (_ || _); [done|]. by rewrite Ht, existsb_app.
Qed.

(* ------------------------------------------------------------------ *)
(** ** Counting in the reconciliation *)

Lemma dedup_wf (l : list job) :
  NoDup (map j_id (dedup l)) /\ Forall (fun j => j_id j <> "") (dedup l).
Proof.
  destruct (dedup_fold_inv l [] (conj (Forall_nil_2 _) NoDup_nil_2) (Forall_nil_2 _))
    as ([HF HN] & Hne & _).
  unfold dedup. set (d' := fold_left _ l []) in *.
  assert (Hk : map j_id (map snd d') = map fst d').
  { clear -HF. induction HF as [|[k v] d Hkv HF IH]; simpl in *; [done|]. by rewrite Hkv, IH. }
  split; [by rewrite Hk|].
  apply Forall_forall. intros j Hj. apply list_elem_of_In, in_map_iff in Hj as ([k v] & <- & Hin).
  apply list_elem_of_In in Hin.
  eapply Forall_forall in HF; [|exact Hin]. eapply Forall_forall in Hne; [|exact Hin].
  simpl in *. by rewrite HF.
Qed.

Section Counting.
Variable search_location : string.
Variable exclude_kws : list string.

Lemma reconcile_loop_total (l : list job) (st st' : loop_state) :
  NoDup (map j_id l) -> Forall (fun j => j_id j <> "") l ->
  reconcile_loop search_location exclude_kws l st = Ok st' ->
  loop_total st' =
  loop_total st + length (List.filter (fun j => bool_decide (j_id j ∉ seen_jobs st)) l).
Proof.
  revert st. induction l as [|j l IH]; intros st Hnd Hne H; cbn [reconcile_loop] in H.
  - injection H as <-. cbn. lia.
  - apply NoDup_cons in Hnd as [Hjl Hnd]. apply Forall_cons in Hne as [Hj Hne].
    assert (Hsame : forall S : gset string, List.filter (fun j0 => bool_decide (j_id j0 ∉ {[j_id j]} ∪ S)) l =
                              List.filter (fun j0 => bool_decide (j_id j0 ∉ S)) l).
    { intros S. apply filter_ext_in. intros j0 Hj0.
      assert (j_id j0 <> j_id j).
      { intros E. apply Hjl. rewrite <- E. apply list_elem_of_In, in_map. exact Hj0. }
      apply bool_decide_ext. set_solver. }
    cbn [List.filter].
    destruct (String.eqb_spec (j_id j) "") as [|_]; [done|].
    case_bool_decide as Hin.
    + rewrite bool_decide_false by (intros Hn; exact (Hn Hin)). exact (IH _ Hnd Hne H).
    + rewrite bool_decide_true by exact Hin. cbn [length].
      destruct (matches_location j search_location) as [[]|e]; cbn [res_bind negb] in H; [|
        rewrite (IH _ Hnd Hne H); unfold loop_total; cbn; lia|discriminate].
      destruct (looks_automated exclude_kws j) as [[]|e]; cbn [res_bind] in H; [|
        |discriminate].
      * rewrite (IH _ Hnd Hne H); unfold loop_total; cbn; lia.
      * rewrite (IH _ Hnd Hne H); unfold loop_total; cbn [seen_jobs new_count
          skipped_not_location skipped_automation]. rewrite Hsame. lia.
Qed.
End Counting.

(** Every unique record whose id was not in the loaded seen set is
    counted exactly once: as new, as skipped by the location filter or
    as skipped by the exclusion filter; records already seen are not
    counted. *)
Theorem reconcile_counts (search_location : string) (exclude_kws : list string)
    (all_found_jobs : list job) (seen0 : gset string) (st : loop_state) :
  reconcile search_location exclude_kws all_found_jobs seen0 = Ok st ->
  new_count st + skipped_not_location st + skipped_automation st =
  length (List.filter (fun j => bool_decide (j_id j ∉ seen0)) (dedup all_found_jobs)).
Proof.
  unfold reconcile. intros H. destruct (dedup_wf all_found_jobs) as [Hnd Hne].
  pose proof (reconcile_loop_total search_location exclude_kws _ _ _ Hnd Hne H) as E.
  unfold loop_total in E. cbn in E. lia.
Qed.

(* ------------------------------------------------------------------ *)
(** ** Records of the Redux extraction *)

Lemma get_or_truthy (item : json) (k : string) (dflt : json) (v : json) :
  truthy dflt = true -> get_or item k (Ok dflt) = Ok v -> truthy v = true.
Proof.
  intros Hd. unfold get_or. destruct (py_get item k) as [x|e]; cbn [res_bind]; [|discriminate].
  destruct (truthy x) eqn:Hx; intros [= <-]; done.
Qed.

Lemma map_item_shape (item : json) (j : job) :
  map_item item = Ok j ->
  j_url j = BASE_URL +:+ "/job/" +:+ j_id j /\ truthy (j_title j) = true /\
  truthy (j_location j) = true /\ truthy (j_salary j) = true /\
  truthy (j_listingDate j) = true.
Proof.
  unfold map_item.
  destruct (get_or item "id" _) as [jid|e]; cbn [res_bind]; [|discriminate].
  destruct (get_or item "title" _) as [t|e] eqn:Ht; cbn [res_bind]; [|discriminate].
  destruct (py_get item "advertiser") as [ad|e]; cbn [res_bind]; [|discriminate].
  destruct (if is_dict ad then _ else _) as [a|e]; cbn [res_bind]; [|discriminate].
  destruct (get_or item "location" _) as [lo|e] eqn:Hl; cbn [res_bind]; [|discriminate].
  destruct (get_or item "salary" _) as [sa|e] eqn:Hs; cbn [res_bind]; [|discriminate].
  destruct (get_or item "listingDate" _) as [ld|e] eqn:Hd; cbn [res_bind]; [|discriminate].
  intros [= <-]. cbn [j_url j_id j_title j_location j_salary j_listingDate].
  split; [reflexivity|].
  split.
  - revert Ht. unfold get_or at 1. destruct (py_get item "title") as [x|e]; cbn [res_bind]; [|discriminate].
    destruct (truthy x) eqn:Hx; [intros [= <-]; exact Hx|].
    intros H. exact (get_or_truthy item "occupation" (JStr "Unknown") t eq_refl H).
  - split; [exact (get_or_truthy _ _ (JStr "Unknown") _ eq_refl Hl)|].
    split; [exact (get_or_truthy _ _ (JStr "N/A") _ eq_refl Hs)|].
    revert Hd. unfold get_or at 1. destruct (py_get item "listingDate") as [x|e]; cbn [res_bind];
      [|discriminate].
    destruct (truthy x) eqn:Hx; [intros [= <-]; exact Hx|].
    intros H. exact (get_or_truthy item "postedDate" (JStr "Unknown") ld eq_refl H).
Qed.

(** A Redux result is never empty, and each of its records has the url
    [BASE_URL/job/<id>] and a truthy title, location, salary and listing
    date (the advertiser alone may be falsy). *)
Theorem redux_records_shape (redux_json : json) (jobs : list job) :
  redux_extract redux_json = Some jobs ->
  jobs <> [] /\
  Forall (fun j => j_url j = BASE_URL +:+ "/job/" +:+ j_id j /\ truthy (j_title j) = true /\
                   truthy (j_location j) = true /\ truthy (j_salary j) = true /\
                   truthy (j_listingDate j) = true) jobs.
Proof.
  unfold redux_extract.
  assert (Hall : forall items, Forall (fun j => j_url j = BASE_URL +:+ "/job/" +:+ j_id j /\
                   truthy (j_title j) = true /\ truthy (j_location j) = true /\
                   truthy (j_salary j) = true /\ truthy (j_listingDate j) = true) (map_items items)).
  { induction items as [|it items IH]; cbn [map_items]; [constructor|].
    destruct (map_item it) as [j|e] eqn:Hm; [|exact IH].
    constructor; [exact (map_item_shape it j Hm)|exact IH]. }
  pose proof (Hall (first_list redux_json redux_paths)) as H.
  destruct (map_items (first_list redux_json redux_paths)) as [|j rest]; [discriminate|].
  intros [= <-]. split; [discriminate|exact H].
Qed.

(* ------------------------------------------------------------------ *)
(** ** Instances of the further properties on concrete inputs *)

Lemma main_run_sent_invariant_witness :
  main_run (fun _ => ["1"]) "Auckland" EXCLUDE_AUTOMATION_KEYWORDS [qa_job "1"] FAbsent
    = Ok (mkRun [qa_job "1"] {["1"]} [["1"]] (saved_file ["1"])) /\
  run_seen (mkRun [qa_job "1"] {["1"]} [["1"]] (saved_file ["1"])) =
    list_to_set (map j_id (run_sent (mkRun [qa_job "1"] {["1"]} [["1"]] (saved_file ["1"]))))
    ∪ load_state FAbsent /\
  NoDup (map j_id (run_sent (mkRun [qa_job "1"] {["1"]} [["1"]] (saved_file ["1"])))) /\
  Forall (fun j => (j_id j ∉ load_state FAbsent) /\ j_id j <> "" /\ j ∈ [qa_job "1"] /\
                   matches_location j "Auckland" = Ok true /\
                   looks_automated EXCLUDE_AUTOMATION_KEYWORDS j = Ok false)
    (run_sent (mkRun [qa_job "1"] {["1"]} [["1"]] (saved_file ["1"]))).
Proof.
  assert (H : main_run (fun _ => ["1"]) "Auckland" EXCLUDE_AUTOMATION_KEYWORDS [qa_job "1"] FAbsent
                = Ok (mkRun [qa_job "1"] {["1"]} [["1"]] (saved_file ["1"])))
    by (vm_compute; reflexivity).
  split; [exact H|].
  exact (main_run_sent_invariant (fun _ => ["1"]) "Auckland" EXCLUDE_AUTOMATION_KEYWORDS
           [qa_job "1"] FAbsent _ H).
Defined.

Lemma save_then_load_witness :
  (NoDup (elements ({["1"; "2"]} : gset string)) /\
   (forall x, x ∈ elements ({["1"; "2"]} : gset string) <-> x ∈ ({["1"; "2"]} : gset string))) /\
  load_state (saved_file (save_state elements {["1"; "2"]})) ⊆ {["1"; "2"]} /\
  size (load_state (saved_file (save_state elements {["1"; "2"]}))) =
    Nat.min (size ({["1"; "2"]} : gset string)) 2000 /\
  (size ({["1"; "2"]} : gset string) <= 2000 ->
   load_state (saved_file (save_state elements {["1"; "2"]})) = {["1"; "2"]}).
Proof.
  split; [split; [apply NoDup_elements|intros x; apply elem_of_elements]|].
  apply (save_then_load elements {["1"; "2"]});
    [apply NoDup_elements|intros x; apply elem_of_elements].
Defined.

Lemma search_url_injective_witness :
  search_url "QA Tester" "Auckland" = search_url "QA Tester" "Auckland" /\
  ("QA Tester" = "QA Tester" /\ "Auckland" = "Auckland").
Proof.
  split; [reflexivity|].
  apply (search_url_injective "QA Tester" "Auckland" "QA Tester" "Auckland"). reflexivity.
Defined.

Lemma parse_response_raises_only_loads_error_witness :
  parse_response (fun _ => Some "{}") (fun _ => Raise ValueError) [Some "<script>"] []
    = Raise ValueError /\
  ValueError <> JSONDecodeError /\
  exists s c, Some s ∈ [Some "<script>"] /\ (fun _ : string => Some "{}") s = Some c /\
              (fun _ : string => @Raise json ValueError) c = Raise ValueError.
Proof.
  split; [reflexivity|].
  apply (parse_response_raises_only_loads_error (fun _ => Some "{}") (fun _ => Raise ValueError)
           [Some "<script>"] [] ValueError).
  reflexivity.
Defined.

Lemma loose_extraction_never_recovers_witness :
  ((forall s c, (fun s0 => if String.eqb s0 "a" then Some "{x}" else Some "{}") s = Some c ->
                exists mid, c = String "{" (mid +:+ "}")) /\
   scan_scripts (fun s0 => if String.eqb s0 "a" then Some "{x}" else Some "{}")
                (fun c => if String.eqb c "{}" then Ok (JObj []) else Raise JSONDecodeError)
                [Some "a"; Some "b"] = Ok (Some (JObj []))) /\
  exists s c, Some s ∈ [Some "a"; Some "b"] /\
    (fun s0 => if String.eqb s0 "a" then Some "{x}" else Some "{}") s = Some c /\
    (fun c0 => if String.eqb c0 "{}" then @Ok json (JObj []) else Raise JSONDecodeError) c
      = Ok (JObj []).
Proof.
  assert (Hshape : forall s c, (fun s0 => if String.eqb s0 "a" then Some "{x}" else Some "{}") s
                               = Some c -> exists mid, c = String "{" (mid +:+ "}")).
  { intros s c. cbv beta. destruct (String.eqb s "a"); intros [= <-];
      [exists "x"; reflexivity|exists ""; reflexivity]. }
  assert (Hscan : scan_scripts (fun s0 => if String.eqb s0 "a" then Some "{x}" else Some "{}")
                    (fun c => if String.eqb c "{}" then Ok (JObj []) else Raise JSONDecodeError)
                    [Some "a"; Some "b"] = Ok (Some (JObj []))) by reflexivity.
  split; [split; [exact Hshape|exact Hscan]|].
  exact (loose_extraction_never_recovers _ _ [Some "a"; Some "b"] (JObj []) Hshape Hscan).
Defined.

Lemma comma_join_filters_witness :
  ("Wellington" <> "" /\ "Auckland" <> "") /\
  exclude_keywords_of ("Wellington" +:+ String "," "Auckland") =
    exclude_keywords_of "Wellington" ++ exclude_keywords_of "Auckland" /\
  looks_automated (exclude_keywords_of ("Wellington" +:+ String "," "Auckland")) cbd_job =
    (let! x := looks_automated (exclude_keywords_of "Wellington") cbd_job in
     let! y := looks_automated (exclude_keywords_of "Auckland") cbd_job in Ok (x || y)) /\
  matches_location cbd_job ("Wellington" +:+ String "," "Auckland") =
    (let! x := matches_location cbd_job "Wellington" in
     let! y := matches_location cbd_job "Auckland" in Ok (x || y)).
Proof.
  split; [split; discriminate|].
  apply (comma_join_filters cbd_job "Wellington" "Auckland"); discriminate.
Defined.

Lemma reconcile_counts_witness :
  reconcile "Auckland" EXCLUDE_AUTOMATION_KEYWORDS [qa_job "1"; senior_job; qa_job "2"] ∅
    = Ok (mkLoop {["2"]} [qa_job "2"] 1 1 0) /\
  new_count (mkLoop {["2"]} [qa_job "2"] 1 1 0) +
  skipped_not_location (mkLoop {["2"]} [qa_job "2"] 1 1 0) +
  skipped_automation (mkLoop {["2"]} [qa_job "2"] 1 1 0) =
  length (List.filter (fun j => bool_decide (j_id j ∉ (∅ : gset string)))
                      (dedup [qa_job "1"; senior_job; qa_job "2"])).
Proof.
  assert (H : reconcile "Auckland" EXCLUDE_AUTOMATION_KEYWORDS [qa_job "1"; senior_job; qa_job "2"] ∅
                = Ok (mkLoop {["2"]} [qa_job "2"] 1 1 0)) by (vm_compute; reflexivity).
  split; [exact H|].
  exact (reconcile_counts "Auckland" EXCLUDE_AUTOMATION_KEYWORDS _ ∅ _ H).
Defined.

Lemma redux_records_shape_witness :
  redux_extract (JObj [("jobs", JArr [JObj [("id", JNum 5); ("title", JStr "QA Tester")]])])
    = Some [mkJob "5" (JStr "QA Tester") (JStr "Unknown") (JStr "Unknown") (JStr "N/A")
                  (BASE_URL +:+ "/job/" +:+ "5") (JStr "Unknown")] /\
  [mkJob "5" (JStr "QA Tester") (JStr "Unknown") (JStr "Unknown") (JStr "N/A")
         (BASE_URL +:+ "/job/" +:+ "5") (JStr "Unknown")] <> [] /\
  Forall (fun j => j_url j = BASE_URL +:+ "/job/" +:+ j_id j /\ truthy (j_title j) = true /\
                   truthy (j_location j) = true /\ truthy (j_salary j) = true /\
                   truthy (j_listingDate j) = true)
    [mkJob "5" (JStr "QA Tester") (JStr "Unknown") (JStr "Unknown") (JStr "N/A")
           (BASE_URL +:+ "/job/" +:+ "5") (JStr "Unknown")].
Proof.
  assert (H : redux_extract (JObj [("jobs", JArr [JObj [("id", JNum 5); ("title", JStr "QA Tester")]])])
    = Some [mkJob "5" (JStr "QA Tester") (JStr "Unknown") (JStr "Unknown") (JStr "N/A")
                  (BASE_URL +:+ "/job/" +:+ "5") (JStr "Unknown")]) by (vm_compute; reflexivity).
  split; [exact H|].
  exact (redux_records_shape _ _ H).
Defined.
